(** * TCT animation frames: classifier, wrap layout, token grid, schedule

    A shallow embedding of [generate_tct_gif.py]: the JSON colouring scan
    and the wrapping draw loop of [draw_json_colored], the token grid and
    the statistics line of [create_frame], and the frame list and the
    duration list of [generate_animation] as driven by [main].

    Conventions.
    - A Python [str] is a list of code points ([N]); nothing below assumes
      the code points are ASCII.
    - Python [int] is [Z]; [//] and [%] are [Z.div] and [Z.modulo], which
      round the same way, and raise [ZeroDivisionError] on a zero divisor.
    - The true division [/] of two ints is kept as the exact rational
      quotient; Python rounds that quotient to the nearest double.
    - Pillow is outside the model: [draw.textbbox] is a parameter
      [text_width] (the value [bbox[2] - bbox[0]]), and a frame is the
      record of what [create_frame] asks Pillow to draw.  The title, the
      separators and the progress bar carry no logic and are left out.

    From [animate_tct.py] the file embeds [colorize_json], which shares
    the scan and the key test, and [print_box], as the list of the lines
    it prints. *)

From Stdlib Require Import ZArith NArith QArith List Bool String Ascii Lia Sorted.
Import ListNotations.
Local Open Scope Z_scope.

(* ================================================================== *)
(** ** Python values *)

Definition char := N.
Definition str := list char.

(** Source text for the examples.  A Rocq string literal cannot hold a
    double quote conveniently, so [lit] reads an apostrophe as the double
    quote U+0022; every other character stands for itself. *)
Definition lit_char (a : ascii) : char :=
  if Ascii.eqb a "'"%char then 34%N else N_of_ascii a.

Definition lit (s : string) : str := map lit_char (list_ascii_of_string s).

Definition QUOTE : char := 34%N.
Definition BACKSLASH : char := 92%N.
Definition COLON : char := 58%N.

(** [c in chars] for a one-character [c]. *)
Definition char_in (c : char) (chars : str) : bool := existsb (N.eqb c) chars.

(** [s.find(c)]: index of the first occurrence, [-1] when there is none. *)
Fixpoint find_from (c : char) (s : str) (i : Z) : Z :=
  match s with
  | [] => -1
  | d :: s' => if N.eqb d c then i else find_from c s' (i + 1)
  end.

Definition find (s : str) (c : char) : Z := find_from c s 0.

(** Exceptions the modelled code can raise, and the error monad. *)
Inductive exn := ZeroDivisionError | UnicodeEncodeError.

Inductive result (A : Type) :=
| Ok (a : A)
| Raise (e : exn).
Arguments Ok {A} a.
Arguments Raise {A} e.

Definition bind {A B} (m : result A) (k : A -> result B) : result B :=
  match m with
  | Ok a => k a
  | Raise e => Raise e
  end.

Notation "x <- m ;; k" := (bind m (fun x => k))
  (at level 61, m at next level, right associativity).

Definition floordiv (a b : Z) : result Z :=
  if b =? 0 then Raise ZeroDivisionError else Ok (a / b).

Definition pymod (a b : Z) : result Z :=
  if b =? 0 then Raise ZeroDivisionError else Ok (a mod b).

Definition truediv (a b : Z) : result Q :=
  if b =? 0 then Raise ZeroDivisionError else Ok (inject_Z a / inject_Z b)%Q.

(** [len(s.encode('utf-8'))]: one to four bytes per code point; a lone
    surrogate cannot be encoded. *)
Definition utf8_char_len (c : char) : result Z :=
  if (c <? 128)%N then Ok 1
  else if (c <? 2048)%N then Ok 2
  else if (55296 <=? c)%N && (c <=? 57343)%N then Raise UnicodeEncodeError
  else if (c <? 65536)%N then Ok 3
  else Ok 4.

Fixpoint utf8_len (s : str) : result Z :=
  match s with
  | [] => Ok 0
  | c :: s' => n <- utf8_char_len c ;; m <- utf8_len s' ;; Ok (n + m)
  end.

Definition encodable (s : str) : bool :=
  forallb (fun c => negb ((55296 <=? c)%N && (c <=? 57343)%N)) s.

(* ================================================================== *)
(** ** [COLORS] *)

Inductive color_key :=
| bg | text | text_dim | token | token_bg
| json_key | json_value | json_bracket
| highlight | progress | border.

Definition COLORS (k : color_key) : string :=
  match k with
  | bg => "#0d1117"
  | text => "#c9d1d9"
  | text_dim => "#8b949e"
  | token => "#58a6ff"
  | token_bg => "#21262d"
  | json_key => "#7ee787"
  | json_value => "#a5d6ff"
  | json_bracket => "#ffa657"
  | highlight => "#f85149"
  | progress => "#238636"
  | border => "#30363d"
  end%string.

(* ================================================================== *)
(** ** [draw_json_colored], first phase: colored segments *)

Definition segment := (str * string)%type.

(** The locals of the scan; [flush_segment] closes over [segments],
    [current_text] and [current_color]. *)
Record scan_state := {
  segments : list segment;
  in_string : bool;
  in_key : bool;
  escape_next : bool;
  current_text : str;
  current_color : string
}.

Definition scan_init : scan_state :=
  {| segments := []; in_string := false; in_key := false;
     escape_next := false; current_text := [];
     current_color := COLORS text |}.

Definition flush_segment (st : scan_state) : scan_state :=
  match current_text st with
  | [] => st
  | _ :: _ =>
      {| segments := segments st ++ [(current_text st, current_color st)];
         in_string := in_string st; in_key := in_key st;
         escape_next := escape_next st;
         current_text := [];
         current_color := current_color st |}
  end.

Definition append_char (c : char) (st : scan_state) : scan_state :=
  {| segments := segments st; in_string := in_string st;
     in_key := in_key st; escape_next := escape_next st;
     current_text := current_text st ++ [c];
     current_color := current_color st |}.

Definition set_color (col : string) (st : scan_state) : scan_state :=
  {| segments := segments st; in_string := in_string st;
     in_key := in_key st; escape_next := escape_next st;
     current_text := current_text st;
     current_color := col |}.

Definition set_escape (b : bool) (st : scan_state) : scan_state :=
  {| segments := segments st; in_string := in_string st;
     in_key := in_key st; escape_next := b;
     current_text := current_text st;
     current_color := current_color st |}.

Definition set_string (s k : bool) (st : scan_state) : scan_state :=
  {| segments := segments st; in_string := s;
     in_key := k; escape_next := escape_next st;
     current_text := current_text st;
     current_color := current_color st |}.

(** The key test of lines 241-244, on [rest = json_str[i+1:]]. *)
Definition key_lookahead (rest : str) : bool :=
  let colon_pos := find rest COLON in
  let quote_pos := find rest QUOTE in
  negb (colon_pos =? -1) && ((quote_pos =? -1) || (colon_pos <? quote_pos + 1)).

(** One iteration of [for i, char in enumerate(json_str)]; [rest] is
    [json_str[i+1:]]. *)
Definition scan_char (c : char) (rest : str) (st : scan_state) : scan_state :=
  if escape_next st then
    set_escape false (append_char c st)
  else if N.eqb c BACKSLASH then
    append_char c (set_escape true st)
  else if N.eqb c QUOTE then
    if negb (in_string st) then
      let st1 := flush_segment st in
      let k := key_lookahead rest in
      let st2 := set_string true k st1 in
      let st3 := set_color (COLORS (if k then json_key else json_value)) st2 in
      append_char c st3
    else
      let st1 := flush_segment (append_char c st) in
      set_color (COLORS text) (set_string false false st1)
  else if char_in c (lit "{}[]") then
    let st1 := set_color (COLORS json_bracket) (flush_segment st) in
    let st2 := flush_segment (append_char c st1) in
    set_color (COLORS text) st2
  else if negb (in_string st) && char_in c (lit ":,") then
    let st1 := set_color (COLORS text_dim) (flush_segment st) in
    let st2 := flush_segment (append_char c st1) in
    set_color (COLORS text) st2
  else
    append_char c st.

Fixpoint scan (json_str : str) (st : scan_state) : scan_state :=
  match json_str with
  | [] => st
  | c :: rest => scan rest (scan_char c rest st)
  end.

(** The list [segments] when the drawing loop starts (line 268). *)
Definition classify (json_str : str) : list segment :=
  segments (flush_segment (scan json_str scan_init)).


(** Everything the scan has consumed so far: the closed segments followed
    by the open run. *)
Definition emitted (st : scan_state) : str :=
  List.concat (map fst (segments st)) ++ current_text st.

(** The invariant behind [flush_segment]'s guard. *)
Definition nonempty_segments (st : scan_state) : Prop :=
  Forall (fun seg : segment => fst seg <> []) (segments st).

(* ================================================================== *)
(** ** [draw_json_colored], second phase: drawing with wrapping *)

Section Drawing.

(** [text_width text] is [bbox[2] - bbox[0]] for
    [bbox = draw.textbbox((0, 0), text, font=font)]. *)
Variable text_width : str -> Z.

Definition line_height : Z := 18.

(** One [draw.text((cursor_x, cursor_y), text, font=font, fill=...)];
    [fill] keeps the hex string handed to [hex_to_rgb]. *)
Record draw_text := {
  at_x : Z;
  at_y : Z;
  drawn : str;
  fill : string
}.

(** Lines 280-282: the cursor the segment is drawn at. *)
Definition wrap_cursor (x max_width : Z) (cursor : Z * Z) (w : Z) : Z * Z :=
  if (fst cursor + w >? x + max_width) && (fst cursor >? x)
  then (x + 20, snd cursor + line_height)
  else cursor.

Definition place_segment (x max_width : Z) (cursor : Z * Z) (seg : segment)
  : draw_text :=
  let c := wrap_cursor x max_width cursor (text_width (fst seg)) in
  {| at_x := fst c; at_y := snd c; drawn := fst seg; fill := snd seg |}.

(** Line 285: the cursor after the segment. *)
Definition advance (x max_width : Z) (cursor : Z * Z) (seg : segment) : Z * Z :=
  let c := wrap_cursor x max_width cursor (text_width (fst seg)) in
  (fst c + text_width (fst seg), snd c).

(** The [draw.text] calls of [for text, color in segments], in order. *)
Fixpoint draw_segments (x max_width : Z) (cursor : Z * Z) (segs : list segment)
  : list draw_text :=
  match segs with
  | [] => []
  | seg :: segs' =>
      place_segment x max_width cursor seg
        :: draw_segments x max_width (advance x max_width cursor seg) segs'
  end.

Definition cursor_after (x max_width : Z) (cursor : Z * Z) (segs : list segment)
  : Z * Z :=
  fold_left (advance x max_width) segs cursor.

(** The calls made and the height returned. *)
Definition draw_json_colored (x y : Z) (json_str : str) (max_width : Z)
  : list draw_text * Z :=
  let segs := classify json_str in
  (draw_segments x max_width (x, y) segs,
   snd (cursor_after x max_width (x, y) segs) - y + line_height).

(* ================================================================== *)
(** ** [create_frame] *)

(** The frame record holds what [create_frame] asks Pillow to draw, and
    the [Raise] results are the exceptions of the Python code itself.
    Pillow can refuse on its own account: [Image.new] a negative size,
    [draw.rectangle] the progress bar of a canvas narrower than its two
    paddings, the GIF writer a negative duration.  Those refusals are
    outside the model ([height], which only places the statistics line
    and the progress bar, is left out), so every statement below that
    gives a frame or an animation assumes a canvas with
    [token_spacing <= width - 2 * padding], and where durations are
    handed to the writer, a frame duration that is not negative. *)

Definition padding : Z := 25.
Definition token_box_width : Z := 48.
Definition token_box_height : Z := 28.
Definition token_spacing : Z := 56.

(** Line 108; the division cannot fail, [token_spacing] is 56. *)
Definition tokens_per_row (width : Z) : Z := (width - 2 * padding) / token_spacing.

(** Lines 111-112. *)
Definition row_col (tokens_per_row i : Z) : result (Z * Z) :=
  row <- floordiv i tokens_per_row ;;
  col <- pymod i tokens_per_row ;;
  Ok (row, col).

Record token_box := {
  box_x : Z;
  box_y : Z;
  box_token : Z;
  filled : bool;   (* [i < visible_tokens]: drawn filled, else placeholder *)
  newest : bool    (* the glow of line 136 *)
}.

(** [for i, token in enumerate(tokens)], from index [i]. *)
Fixpoint token_boxes (tokens_per_row y visible_tokens i : Z) (tokens : list Z)
  : result (list token_box) :=
  match tokens with
  | [] => Ok []
  | tok :: tokens' =>
      rc <- row_col tokens_per_row i ;;
      let x := padding + snd rc * token_spacing in
      let current_y := y + fst rc * (token_box_height + 8) in
      let b := {| box_x := x; box_y := current_y; box_token := tok;
                  filled := i <? visible_tokens;
                  newest := (i <? visible_tokens) && (i =? visible_tokens - 1) |} in
      bs <- token_boxes tokens_per_row y visible_tokens (i + 1) tokens' ;;
      Ok (b :: bs)
  end.

(** Lines 176-181, the text of the statistics line. *)
Inductive stats :=
| Compression (bytes tokens : Z) (compression : Q)
| UnknownStats.   (* "? bytes -> ? tokens" *)

Definition stats_line (visible_tokens utf8_byte_count : Z) : result stats :=
  if (visible_tokens >? 0) && (utf8_byte_count >? 0) then
    compression <- truediv utf8_byte_count visible_tokens ;;
    Ok (Compression utf8_byte_count visible_tokens compression)
  else Ok UnknownStats.

Inductive decoded_view :=
| DecodedJson (calls : list draw_text)
| Waiting.        (* "(waiting for tokens...)" *)

Record frame := {
  input_view : list draw_text;
  token_label : Z * Z;          (* "TCT Tokens (visible/total):" *)
  boxes : list token_box;
  decoded : decoded_view;
  stats_text : stats
}.

Definition len {A} (l : list A) : Z := Z.of_nat (List.length l).

Definition create_frame (width : Z) (input_json : str) (tokens : list Z)
    (visible_tokens : Z) (decoded_json : str) (utf8_byte_count : Z)
  : result frame :=
  let y := padding + 35 + 15 + 22 in
  let input := draw_json_colored padding y input_json (width - 2 * padding) in
  let y := y + Z.max (snd input) 20 in
  let y := y + 25 in
  let tokens_per_row := tokens_per_row width in
  bs <- token_boxes tokens_per_row y visible_tokens 0 tokens ;;
  num_rows <- floordiv (len tokens + tokens_per_row - 1) tokens_per_row ;;
  let y := y + num_rows * (token_box_height + 8) + 15 in
  let y := y + 15 + 22 in
  let dec := match decoded_json with
             | [] => Waiting
             | _ :: _ => DecodedJson
                 (fst (draw_json_colored padding y decoded_json (width - 2 * padding)))
             end in
  st <- stats_line visible_tokens utf8_byte_count ;;
  Ok {| input_view := fst input;
        token_label := (visible_tokens, len tokens);
        boxes := bs;
        decoded := dec;
        stats_text := st |}.

(* ================================================================== *)
(** ** [generate_animation] and the part of [main] that feeds it *)

(** [len(s.encode('utf-8')) if s else 0]. *)
Definition byte_count (s : str) : result Z :=
  match s with
  | [] => Ok 0
  | _ :: _ => utf8_len s
  end.

(** [s or "{}"]. *)
Definition or_braces (s : str) : str :=
  match s with
  | [] => lit "{}"
  | _ :: _ => s
  end.

(** [for i, (decoded, token) in enumerate(decoded_states)], from index [i]. *)
Fixpoint token_frames (width : Z) (json_str : str) (tokens : list Z) (i : Z)
    (decoded_states : list (str * Z)) : result (list frame) :=
  match decoded_states with
  | [] => Ok []
  | (decoded_i, _) :: rest =>
      decoded_bytes <- byte_count decoded_i ;;
      f <- create_frame width json_str tokens (i + 1) (or_braces decoded_i)
             decoded_bytes ;;
      fs <- token_frames width json_str tokens (i + 1) rest ;;
      Ok (f :: fs)
  end.

(** [decoded_states[-1][0] if decoded_states else "{}"]. *)
Definition final_decoded_of (decoded_states : list (str * Z)) : str :=
  match decoded_states with
  | [] => lit "{}"
  | _ :: _ => fst (last decoded_states ([], 0))
  end.

(** What is handed to [frames[0].save]; the function returns [len(frames)]. *)
Record animation := {
  frames : list frame;
  durations : list Z
}.

Definition generate_animation (json_str : str) (tokens : list Z)
    (decoded_states : list (str * Z)) (width frame_duration : Z)
  : result animation :=
  f0 <- create_frame width json_str tokens 0 [] 0 ;;
  fs <- token_frames width json_str tokens 0 decoded_states ;;
  let final_decoded := final_decoded_of decoded_states in
  final_bytes <- byte_count final_decoded ;;
  fl <- create_frame width json_str tokens (len tokens) final_decoded final_bytes ;;
  let frames := (f0 :: fs) ++ [fl] in
  let durations := repeat frame_duration (List.length frames - 1)%nat
                     ++ [frame_duration * 3] in
  Ok {| frames := frames; durations := durations |}.

(** Lines 390-394 of [main]: one decoded state per token prefix.  The
    tokenizer is external; [decode_prefix] returns
    [(decoded, consumed, surplus)]. *)
Section Main.

Variable decode_prefix : list Z -> str * Z * Z.

Definition decoded_states_of (tokens : list Z) : list (str * Z) :=
  map (fun i => (fst (fst (decode_prefix (firstn (S i) tokens))), nth i tokens 0))
      (seq 0 (List.length tokens)).

Definition animate (json_str : str) (tokens : list Z) (width speed : Z)
  : result animation :=
  generate_animation json_str tokens (decoded_states_of tokens) width speed.

End Main.

End Drawing.

Definition visible_count (f : frame) : Z := fst (token_label f).

(** [start, start + 1, ...], [n] numbers. *)
Fixpoint count_up (start : Z) (n : nat) : list Z :=
  match n with
  | O => []
  | S n' => start :: count_up (start + 1) n'
  end.

(* ================================================================== *)
(** ** Worked inputs *)

Module Samples.

(** A monospace font, eight pixels a character. *)
Definition mono (s : str) : Z := 8 * len s.

Definition pod_json : str := lit "{'apiVersion':'v1','kind':'Pod'}".

Definition seven_tokens : list Z := [11; 12; 13; 14; 15; 16; 17].

(** Nothing decoded before the seventh token, everything at the seventh. *)
Definition late_decode (prefix : list Z) : str * Z * Z :=
  if len prefix <? 7 then ([], 0, 0) else (pod_json, 7, 0).

End Samples.

(* ================================================================== *)
(** ** [animate_tct.py]: [Colors], [colorize_json] and [print_box] *)

Definition ESC : char := 27%N.
Definition Colors_RESET : str := ESC :: lit "[0m".
Definition Colors_BOLD : str := ESC :: lit "[1m".
Definition Colors_DIM : str := ESC :: lit "[2m".
Definition Colors_GREEN : str := ESC :: lit "[32m".
Definition Colors_YELLOW : str := ESC :: lit "[33m".
Definition Colors_MAGENTA : str := ESC :: lit "[35m".
Definition Colors_CYAN : str := ESC :: lit "[36m".

(** The locals of [colorize_json]; [result] is the list that is joined at
    the end. *)
Record color_state := {
  result_pieces : list str;
  c_in_string : bool;
  c_in_key : bool;
  c_escape_next : bool
}.

Definition color_init : color_state :=
  {| result_pieces := []; c_in_string := false; c_in_key := false;
     c_escape_next := false |}.

(** [result.append(piece)] together with the flag updates of the branch. *)
Definition emit (piece : str) (s k e : bool) (st : color_state) : color_state :=
  {| result_pieces := result_pieces st ++ [piece];
     c_in_string := s; c_in_key := k; c_escape_next := e |}.

(** One iteration of the loop of [colorize_json]; [rest] is
    [json_str[i+1:]]. *)
Definition colorize_char (c : char) (rest : str) (st : color_state)
  : color_state :=
  let s := c_in_string st in
  let k := c_in_key st in
  if c_escape_next st then emit [c] s k false st
  else if N.eqb c BACKSLASH then emit [c] s k true st
  else if N.eqb c QUOTE then
    if negb s then
      let key := key_lookahead rest in
      if key then emit (Colors_CYAN ++ [c]) true key false st
      else emit (Colors_GREEN ++ [c]) true key false st
    else emit ([c] ++ Colors_RESET) false false false st
  else if char_in c (lit "{}[]") then
    emit (Colors_YELLOW ++ [c] ++ Colors_RESET) s k false st
  else if char_in c (lit ":,") then
    emit (Colors_DIM ++ [c] ++ Colors_RESET) s k false st
  else if negb s && char_in c (lit "truefalsnul") then
    emit (Colors_MAGENTA ++ [c] ++ Colors_RESET) s k false st
  else emit [c] s k false st.

Fixpoint colorize_scan (json_str : str) (st : color_state) : color_state :=
  match json_str with
  | [] => st
  | c :: rest => colorize_scan rest (colorize_char c rest st)
  end.

(** [''.join(result)]. *)
Definition colorize_json (json_str : str) : str :=
  List.concat (result_pieces (colorize_scan json_str color_init)).

(** What [colorize_json] may put before and after a character. *)
Definition code_before (p : str) : Prop :=
  In p [[]; Colors_CYAN; Colors_GREEN; Colors_YELLOW; Colors_DIM; Colors_MAGENTA].

Definition code_after (p : str) : Prop := In p [[]; Colors_RESET].

(** [out] is [s] with every character kept in place, each one possibly
    preceded by a colour code and possibly followed by the reset code. *)
Inductive decorated : str -> str -> Prop :=
| decorated_nil : decorated [] []
| decorated_cons c s out pre post :
    code_before pre -> code_after post -> decorated s out ->
    decorated (c :: s) (pre ++ c :: post ++ out).

(** [s[:k]]. *)
Definition slice_to (s : str) (k : Z) : str :=
  if k <? 0 then firstn (Z.to_nat (len s + k)) s else firstn (Z.to_nat k) s.

(** [s.split(sep)] for a one-character [sep]; [cur] is the piece being
    read. *)
Fixpoint split_from (sep : char) (s cur : str) : list str :=
  match s with
  | [] => [cur]
  | c :: s' =>
      if N.eqb c sep then cur :: split_from sep s' []
      else split_from sep s' (cur ++ [c])
  end.

Definition split (s : str) (sep : char) : list str := split_from sep s [].

Definition NEWLINE : char := 10%N.
Definition SPACE : char := 32%N.
Definition BOX_H : char := 9472%N.    (* U+2500 *)
Definition BOX_V : char := 9474%N.    (* U+2502 *)
Definition BOX_TL : char := 9484%N.   (* U+250C *)
Definition BOX_TR : char := 9488%N.   (* U+2510 *)
Definition BOX_BL : char := 9492%N.   (* U+2514 *)
Definition BOX_BR : char := 9496%N.   (* U+2518 *)

(** [c * n], empty for [n <= 0]. *)
Definition times (c : char) (n : Z) : str := repeat c (Z.to_nat n).

(** [len(line.encode('utf-8').decode('utf-8', errors='ignore'))]: the
    encoding raises on a lone surrogate, and decoding what was encoded
    gives the line back. *)
Definition visible_len (line : str) : result Z :=
  if encodable line then Ok (len line) else Raise UnicodeEncodeError.

(** One content row of [print_box], as printed. *)
Definition box_row (width : Z) (line : str) : result str :=
  v <- visible_len line ;;
  let line := if v >? width - 4
              then slice_to line (width - 7) ++ lit "..."
              else line in
  let padding := width - 4 - len line in
  Ok ([BOX_V] ++ lit "  " ++ line ++ times SPACE (Z.max 0 padding)
        ++ lit "  " ++ [BOX_V]).

Fixpoint mapM {A B} (f : A -> result B) (l : list A) : result (list B) :=
  match l with
  | [] => Ok []
  | a :: l' => b <- f a ;; bs <- mapM f l' ;; Ok (b :: bs)
  end.

Definition box_top (title : str) (width : Z) : str :=
  match title with
  | [] => [BOX_TL] ++ times BOX_H width ++ [BOX_TR]
  | _ :: _ =>
      let padding := width - len title - 4 in
      [BOX_TL; BOX_H; SPACE] ++ Colors_BOLD ++ title ++ Colors_RESET
        ++ [SPACE] ++ times BOX_H padding ++ [BOX_TR]
  end.

Definition box_bottom (width : Z) : str :=
  [BOX_BL] ++ times BOX_H width ++ [BOX_BR].

(** The lines [print_box] prints when no line raises. *)
Definition print_box (content title : str) (width : Z) : result (list str) :=
  let lines := split content NEWLINE in
  let top := box_top title width in
  rows <- mapM (box_row width) lines ;;
  Ok (top :: rows ++ [box_bottom width]).

(* ================================================================== *)
(** ** Vocabulary for the properties below *)

(** The characters of a string literal's body, as the scan reads them:
    one at a time, or a backslash with the character it escapes. *)
Inductive body_item :=
| Plain (c : char)
| Escaped (c : char).

Definition item_chars (it : body_item) : str :=
  match it with
  | Plain c => [c]
  | Escaped c => [BACKSLASH; c]
  end.

(** A character that can stand alone in a body: not a backslash, not a
    double quote and not one of the four brackets. *)
Definition plain_ok (it : body_item) : bool :=
  match it with
  | Plain c =>
      negb (N.eqb c BACKSLASH) && negb (N.eqb c QUOTE)
      && negb (char_in c (lit "{}[]"))
  | Escaped _ => true
  end.

Definition body_chars (items : list body_item) : str :=
  List.concat (map item_chars items).

(** The five colours a segment can carry. *)
Definition segment_colors : list string :=
  [COLORS text; COLORS json_key; COLORS json_value; COLORS json_bracket;
   COLORS text_dim].

(** The vertical positions [create_frame] reaches: the top of the token
    grid and the top of the decoded JSON. *)
Definition grid_top (text_width : str -> Z) (width : Z) (input_json : str) : Z :=
  let y := padding + 35 + 15 + 22 in
  y + Z.max (snd (draw_json_colored text_width padding y input_json
                    (width - 2 * padding))) 20 + 25.

Definition num_rows (width : Z) (tokens : list Z) : Z :=
  (len tokens + tokens_per_row width - 1) / tokens_per_row width.

Definition decoded_top (text_width : str -> Z) (width : Z) (input_json : str)
    (tokens : list Z) : Z :=
  grid_top text_width width input_json
  + num_rows width tokens * (token_box_height + 8) + 15 + 15 + 22.

Definition total_duration (durations : list Z) : Z :=
  fold_right Z.add 0 durations.

(** What every closed segment satisfies. *)
Definition seg_ok (seg : segment) : Prop :=
  In (snd seg) segment_colors
  /\ (snd seg = COLORS json_bracket ->
      exists ch, fst seg = [ch] /\ char_in ch (lit "{}[]") = true)
  /\ (snd seg = COLORS text_dim ->
      exists ch, fst seg = [ch] /\ char_in ch (lit ":,") = true)
  /\ (snd seg = COLORS json_key \/ snd seg = COLORS json_value ->
      exists r, fst seg = QUOTE :: r).

(** What the open run satisfies between two iterations. *)
Definition cur_ok (st : scan_state) : Prop :=
  current_color st = COLORS text
  \/ ((current_color st = COLORS json_key
       \/ current_color st = COLORS json_value)
      /\ exists r, current_text st = QUOTE :: r).

(** The state with [t] appended to the open run. *)
Definition extend (st : scan_state) (t : str) : scan_state :=
  {| segments := segments st; in_string := in_string st;
     in_key := in_key st; escape_next := escape_next st;
     current_text := current_text st ++ t;
     current_color := current_color st |}.

(** Line 188 of [create_frame]:
    [visible_tokens / len(tokens) if tokens else 0], the filled share of
    the progress bar. *)
Definition progress_of (visible_tokens : Z) (tokens : list Z) : result Q :=
  match tokens with
  | [] => Ok 0%Q
  | _ :: _ => truediv visible_tokens (len tokens)
  end.

(** Reading order of the drawn text: [p] is read before [q] when it is
    on a line above it, or on the same line and ends at or before the
    point where [q] starts. *)
Definition reads_before (text_width : str -> Z) (p q : draw_text) : Prop :=
  at_y p < at_y q
  \/ (at_y p = at_y q /\ at_x p + text_width (drawn p) <= at_x q).

(* ================================================================== *)
(** ** The classifier keeps every character *)

Lemma emitted_flush st : emitted (flush_segment st) = emitted st.
Proof.
  unfold emitted, flush_segment.
  destruct (current_text st) as [|c r] eqn:E; [now rewrite E|].
  cbn [segments current_text].
  rewrite map_app, concat_app. cbn. now rewrite !app_nil_r.
Qed.

Lemma emitted_append c st : emitted (append_char c st) = emitted st ++ [c].
Proof. unfold emitted; cbn. now rewrite app_assoc. Qed.

Lemma emitted_set_color col st : emitted (set_color col st) = emitted st.
Proof. reflexivity. Qed.

Lemma emitted_set_escape b st : emitted (set_escape b st) = emitted st.
Proof. reflexivity. Qed.

Lemma emitted_set_string s k st : emitted (set_string s k st) = emitted st.
Proof. reflexivity. Qed.

Lemma current_text_flush st : current_text (flush_segment st) = [].
Proof.
  unfold flush_segment. destruct (current_text st) eqn:E; [exact E|reflexivity].
Qed.

Ltac emitted_norm :=
  repeat first
    [ rewrite emitted_set_color | rewrite emitted_set_escape
    | rewrite emitted_set_string | rewrite emitted_flush
    | rewrite emitted_append ].

Lemma emitted_scan_char c rest st :
  emitted (scan_char c rest st) = emitted st ++ [c].
Proof.
  unfold scan_char.
  repeat match goal with
         | |- context [if ?b then _ else _] => destruct b
         end; cbv zeta; emitted_norm; reflexivity.
Qed.

Lemma emitted_scan s : forall st, emitted (scan s st) = emitted st ++ s.
Proof.
  induction s as [|c rest IH]; intros st; cbn [scan].
  - now rewrite app_nil_r.
  - rewrite IH, emitted_scan_char, <- app_assoc. reflexivity.
Qed.

(** C1. For every input string, the texts of the segments the scan
    produces, concatenated in order, are the input string. *)
Theorem classify_concat (s : str) : List.concat (map fst (classify s)) = s.
Proof.
  unfold classify.
  set (st := flush_segment (scan s scan_init)).
  assert (E : emitted st = s).
  { subst st. rewrite emitted_flush, emitted_scan. reflexivity. }
  unfold emitted in E. subst st.
  rewrite current_text_flush, app_nil_r in E. exact E.
Qed.

(* ================================================================== *)
(** ** No empty segment *)

Lemma nonempty_flush st : nonempty_segments st -> nonempty_segments (flush_segment st).
Proof.
  unfold nonempty_segments, flush_segment. intros H.
  destruct (current_text st) as [|c r] eqn:E; [exact H|].
  cbn [segments]. apply Forall_app. split; [exact H|].
  constructor; [cbn; discriminate|constructor].
Qed.

Lemma nonempty_append c st : nonempty_segments st -> nonempty_segments (append_char c st).
Proof. exact (fun H => H). Qed.

Lemma nonempty_set_color col st :
  nonempty_segments st -> nonempty_segments (set_color col st).
Proof. exact (fun H => H). Qed.

Lemma nonempty_set_escape b st :
  nonempty_segments st -> nonempty_segments (set_escape b st).
Proof. exact (fun H => H). Qed.

Lemma nonempty_set_string s k st :
  nonempty_segments st -> nonempty_segments (set_string s k st).
Proof. exact (fun H => H). Qed.

Create HintDb nonempty.
#[local] Hint Resolve nonempty_flush nonempty_append nonempty_set_color
  nonempty_set_escape nonempty_set_string : nonempty.

Lemma nonempty_scan_char c rest st :
  nonempty_segments st -> nonempty_segments (scan_char c rest st).
Proof.
  intros H. unfold scan_char.
  repeat match goal with
         | |- context [if ?b then _ else _] => destruct b
         end; cbv zeta; auto 10 with nonempty.
Qed.

Lemma nonempty_scan s : forall st,
  nonempty_segments st -> nonempty_segments (scan s st).
Proof.
  induction s as [|c rest IH]; intros st H; cbn [scan]; [exact H|].
  apply IH, nonempty_scan_char, H.
Qed.

(** C10. No segment the scan produces has an empty text: [flush_segment]
    appends only when [current_text] is non-empty. *)
Theorem classify_nonempty (s : str) :
  Forall (fun seg : segment => fst seg <> []) (classify s).
Proof.
  unfold classify. apply nonempty_flush, nonempty_scan. constructor.
Qed.

(* ================================================================== *)
(** ** Keys, values and brackets on concrete inputs *)

(** A well-formed key: its closing quote comes first, the colon right
    after it, and the test [colon_pos < quote_pos + 1] fails. *)
Lemma key_lookahead_closed_key :
  key_lookahead (lit "a':'b'}") = false
  /\ find (lit "a':'b'}") COLON = 2 /\ find (lit "a':'b'}") QUOTE = 1.
Proof. repeat split. Qed.

(** C2. On [{"a":"b"}] the scan colours the first quoted run with
    [COLORS['json_value']], not [COLORS['json_key']]; the second quoted
    run is coloured [COLORS['json_value']] as well. *)
Theorem classify_key_value_sample :
  classify (lit "{'a':'b'}")
  = [ (lit "{", COLORS json_bracket);
      (lit "'a'", COLORS json_value);
      (lit ":", COLORS text_dim);
      (lit "'b'", COLORS json_value);
      (lit "}", COLORS json_bracket) ]
  /\ COLORS json_value <> COLORS json_key.
Proof. split; [reflexivity|discriminate]. Qed.

(** C5. On [{"a":"{"}] the brace inside the string value closes the open
    run and becomes a bracket segment of its own, and the closing quote
    after it is left in the plain colour. *)
Theorem classify_bracket_in_string :
  classify (lit "{'a':'{'}")
  = [ (lit "{", COLORS json_bracket);
      (lit "'a'", COLORS json_value);
      (lit ":", COLORS text_dim);
      (lit "'", COLORS json_value);
      (lit "{", COLORS json_bracket);
      (lit "'", COLORS text);
      (lit "}", COLORS json_bracket) ].
Proof. reflexivity. Qed.

(** The sibling branch is guarded: a colon inside a string stays in the
    string's run. *)
Lemma classify_colon_in_string :
  classify (lit "['a:b']")
  = [ (lit "[", COLORS json_bracket);
      (lit "'a:b'", COLORS json_key);
      (lit "]", COLORS json_bracket) ].
Proof. reflexivity. Qed.

(* ================================================================== *)
(** ** The drawing loop *)

Section DrawingFacts.

Variable text_width : str -> Z.
Variables x max_width : Z.

Lemma wrap_cursor_y cur w : snd cur <= snd (wrap_cursor x max_width cur w).
Proof.
  unfold wrap_cursor, line_height.
  destruct ((fst cur + w >? x + max_width) && (fst cur >? x)); cbn; lia.
Qed.

Lemma draw_segments_whole segs : forall cur,
  map (fun d => (drawn d, fill d)) (draw_segments text_width x max_width cur segs)
  = segs.
Proof.
  induction segs as [|[t c] segs IH]; intros cur; cbn; [reflexivity|].
  now rewrite IH.
Qed.

Lemma draw_segments_below segs : forall cur,
  Forall (fun d => snd cur <= at_y d)
         (draw_segments text_width x max_width cur segs).
Proof.
  induction segs as [|seg segs IH]; intros cur; cbn [draw_segments];
    constructor.
  - cbn. apply wrap_cursor_y.
  - eapply Forall_impl; [|apply IH].
    intros d Hd. cbn in Hd.
    pose proof (wrap_cursor_y cur (text_width (fst seg))). lia.
Qed.

Lemma draw_segments_sorted segs : forall cur,
  StronglySorted Z.le
    (map at_y (draw_segments text_width x max_width cur segs)).
Proof.
  induction segs as [|seg segs IH]; intros cur; cbn [draw_segments map];
    constructor.
  - apply IH.
  - apply Forall_map.
    eapply Forall_impl; [|apply draw_segments_below].
    intros d Hd. cbn in Hd. cbn. exact Hd.
Qed.

Lemma draw_segments_nth pre seg post : forall cur,
  nth_error (draw_segments text_width x max_width cur (pre ++ seg :: post))
            (List.length pre)
  = Some (place_segment text_width x max_width
            (cursor_after text_width x max_width cur pre) seg).
Proof.
  induction pre as [|s pre IH]; intros cur; cbn; [reflexivity|].
  apply IH.
Qed.

(** Where a call lands, from the call before it. *)
Lemma draw_segments_next segs : forall cur k p q,
  nth_error (draw_segments text_width x max_width cur segs) k = Some p ->
  nth_error (draw_segments text_width x max_width cur segs) (S k) = Some q ->
  (at_x q, at_y q)
  = wrap_cursor x max_width (at_x p + text_width (drawn p), at_y p)
      (text_width (drawn q)).
Proof.
  induction segs as [|s1 segs IH]; intros cur k p q Hp Hq.
  - destruct k; discriminate.
  - destruct k as [|k].
    + destruct segs as [|s2 segs]; [discriminate|].
      cbn in Hp, Hq. injection Hp as <-. injection Hq as <-.
      cbn. unfold advance.
      now destruct (wrap_cursor _ _ _ _).
    + cbn [draw_segments nth_error] in Hp, Hq. eapply IH; eassumption.
Qed.

(** The first call is at the left margin: nothing wraps before it. *)
Lemma draw_segments_first segs y p :
  nth_error (draw_segments text_width x max_width (x, y) segs) 0 = Some p ->
  at_x p = x /\ at_y p = y.
Proof.
  destruct segs as [|seg segs]; [discriminate|].
  cbn [draw_segments nth_error]. intros [= <-].
  unfold place_segment, wrap_cursor. cbn [fst snd].
  replace (x >? x) with false by (symmetry; lia).
  rewrite andb_false_r. split; reflexivity.
Qed.

End DrawingFacts.

(** Every call made from a cursor is on a lower line than the cursor, or
    on its line and not left of it. *)
Lemma draw_segments_after (text_width : str -> Z) (x max_width : Z)
    (segs : list segment) :
  Forall (fun seg : segment => 0 <= text_width (fst seg)) segs ->
  forall cur,
    Forall (fun d => snd cur < at_y d
                     \/ (snd cur = at_y d /\ fst cur <= at_x d))
           (draw_segments text_width x max_width cur segs).
Proof.
  induction 1 as [|seg segs Hseg _ IH]; intros cur; cbn [draw_segments];
    constructor.
  - cbn [at_x at_y place_segment]. unfold wrap_cursor, line_height.
    destruct ((fst cur + text_width (fst seg) >? x + max_width)
              && (fst cur >? x)); cbn [fst snd]; lia.
  - eapply Forall_impl; [|apply IH].
    intros d. unfold advance, wrap_cursor, line_height.
    destruct ((fst cur + text_width (fst seg) >? x + max_width)
              && (fst cur >? x)); cbn [fst snd]; lia.
Qed.

Lemma draw_segments_reading (text_width : str -> Z) (x max_width : Z)
    (segs : list segment) :
  Forall (fun seg : segment => 0 <= text_width (fst seg)) segs ->
  forall cur,
    StronglySorted (reads_before text_width)
      (draw_segments text_width x max_width cur segs).
Proof.
  induction 1 as [|seg segs Hseg Hall IH]; intros cur; cbn [draw_segments];
    constructor.
  - apply IH.
  - pose proof (draw_segments_after text_width x max_width segs Hall
                  (advance text_width x max_width cur seg)) as A.
    eapply Forall_impl; [|exact A].
    intros d. unfold reads_before, advance.
    cbn [fst snd at_x at_y drawn place_segment]. tauto.
Qed.

(** C6. The drawing loop issues one call per segment, in the order of the
    segments and with their texts and colours unchanged, so the drawn
    texts concatenate to the segments' texts; the vertical position never
    decreases from one call to a later one.  For widths that are not
    negative the order of the calls is the reading order: of two calls,
    the earlier one is on a line above the later one, or on the same
    line and ends at or before the point where the later one starts. *)
Theorem draw_segments_order (text_width : str -> Z) (x y max_width : Z)
    (segs : list segment) :
  let calls := draw_segments text_width x max_width (x, y) segs in
  map (fun d => (drawn d, fill d)) calls = segs
  /\ List.concat (map drawn calls) = List.concat (map fst segs)
  /\ StronglySorted Z.le (map at_y calls)
  /\ (Forall (fun seg : segment => 0 <= text_width (fst seg)) segs ->
      StronglySorted (reads_before text_width) calls).
Proof.
  cbv zeta.
  pose proof (draw_segments_whole text_width x max_width segs (x, y)) as W.
  split; [exact W|]. split; [|split; [apply draw_segments_sorted|]].
  - rewrite <- W at 2. rewrite map_map. reflexivity.
  - intros H. now apply draw_segments_reading.
Qed.

Lemma draw_segments_order_witness :
  Forall (fun seg : segment => 0 <= Samples.mono (fst seg))
         (classify Samples.pod_json)
  /\ StronglySorted (reads_before Samples.mono)
       (draw_segments Samples.mono 25 120 (25, 97)
          (classify Samples.pod_json)).
Proof.
  assert (H : Forall (fun seg : segment => 0 <= Samples.mono (fst seg))
                (classify Samples.pod_json))
    by (vm_compute; repeat constructor; discriminate).
  split; [exact H|].
  destruct (draw_segments_order Samples.mono 25 97 120
              (classify Samples.pod_json)) as (_ & _ & _ & R).
  exact (R H).
Defined.

(** C7. A segment wider than [max_width] is drawn whole, text and colour
    unchanged, at the cursor: at the cursor left by the segments before it
    when that cursor is at the left margin [x], and else at the start of a
    continuation line, [x + 20] and one [line_height] lower.  Every call
    draws one whole segment; the first call is at the left margin; and
    whenever a call is lower than the call before it, it is exactly one
    [line_height] lower, it starts at [x + 20], and the cursor left by
    the call before it was past [x]. *)
Theorem draw_segments_wide (text_width : str -> Z) (x y max_width : Z)
    (pre post : list segment) (seg : segment) :
  text_width (fst seg) > max_width ->
  let cur := cursor_after text_width x max_width (x, y) pre in
  let calls := draw_segments text_width x max_width (x, y) (pre ++ seg :: post) in
  nth_error calls (List.length pre)
  = Some {| at_x := if fst cur >? x then x + 20 else fst cur;
            at_y := if fst cur >? x then snd cur + line_height else snd cur;
            drawn := fst seg; fill := snd seg |}
  /\ map (fun d => (drawn d, fill d)) calls = pre ++ seg :: post
  /\ (forall p, nth_error calls 0 = Some p -> at_x p = x /\ at_y p = y)
  /\ (forall k p q,
        nth_error calls k = Some p -> nth_error calls (S k) = Some q ->
        at_y q <> at_y p ->
        at_y q = at_y p + line_height /\ at_x q = x + 20
        /\ at_x p + text_width (drawn p) > x).
Proof.
  intros Hw. cbv zeta. split; [|split; [|split]].
  - rewrite draw_segments_nth. unfold place_segment, wrap_cursor.
    destruct (fst (cursor_after _ _ _ _ _) >? x) eqn:E.
    + replace (_ >? x + max_width) with true by (symmetry; lia).
      reflexivity.
    + rewrite andb_false_r. reflexivity.
  - apply draw_segments_whole.
  - intros p. apply draw_segments_first.
  - intros k p q Hp Hq Hy.
    pose proof (draw_segments_next _ _ _ _ _ _ _ _ Hp Hq) as E.
    unfold wrap_cursor in E. cbn [fst snd] in E.
    destruct ((at_x p + text_width (drawn p) + text_width (drawn q)
                 >? x + max_width)
              && (at_x p + text_width (drawn p) >? x)) eqn:B.
    + apply andb_prop in B. destruct B as [_ B].
      injection E as Ex Ey. repeat split; [exact Ey|exact Ex|lia].
    + injection E as _ Ey. contradiction.
Qed.

(* ================================================================== *)
(** ** The token grid and the statistics line *)

Lemma row_col_ok (tpr i : Z) :
  tpr <> 0 -> row_col tpr i = Ok (i / tpr, i mod tpr).
Proof.
  intros H. unfold row_col, floordiv, pymod.
  destruct (tpr =? 0) eqn:E; [lia|reflexivity].
Qed.

Lemma row_col_zero (i : Z) : row_col 0 i = Raise ZeroDivisionError.
Proof. reflexivity. Qed.

Lemma token_boxes_ok (tpr y visible : Z) (tokens : list Z) :
  tpr <> 0 ->
  forall i, exists bs,
    token_boxes tpr y visible i tokens = Ok bs
    /\ map box_token bs = tokens.
Proof.
  intros H. induction tokens as [|tok tokens IH]; intros i; cbn [token_boxes].
  - now exists [].
  - rewrite (row_col_ok _ _ H). cbn [bind].
    destruct (IH (i + 1)) as (bs & -> & Hbs). cbn [bind].
    eexists. split; [reflexivity|]. cbn. now rewrite Hbs.
Qed.

Lemma stats_line_total (visible bytes : Z) :
  exists st, stats_line visible bytes = Ok st.
Proof.
  unfold stats_line, truediv.
  destruct ((visible >? 0) && (bytes >? 0)) eqn:E; [|now eexists].
  apply andb_prop in E. destruct E as [E _].
  destruct (visible =? 0) eqn:Z0; [lia|]. now eexists.
Qed.

Lemma stats_line_compression (visible bytes : Z) :
  0 < visible -> 0 < bytes ->
  stats_line visible bytes
  = Ok (Compression bytes visible (inject_Z bytes / inject_Z visible)%Q).
Proof.
  intros Hv Hb. unfold stats_line, truediv.
  replace (visible >? 0) with true by (symmetry; lia).
  replace (bytes >? 0) with true by (symmetry; lia).
  destruct (visible =? 0) eqn:Z0; [lia|]. reflexivity.
Qed.

Section FrameFacts.

Variable text_width : str -> Z.

Lemma create_frame_ok (width : Z) (json : str) (tokens : list Z)
    (visible : Z) (decoded_json : str) (bytes : Z) :
  tokens_per_row width <> 0 ->
  exists f,
    create_frame text_width width json tokens visible decoded_json bytes = Ok f
    /\ token_label f = (visible, len tokens)
    /\ map box_token (boxes f) = tokens
    /\ stats_line visible bytes = Ok (stats_text f).
Proof.
  intros H. unfold create_frame. cbv zeta.
  match goal with
  | |- context [token_boxes ?t ?y ?v 0 tokens] =>
      destruct (token_boxes_ok t y v tokens H 0) as (bs & -> & Hbs)
  end.
  cbn [bind]. unfold floordiv.
  destruct (tokens_per_row width =? 0) eqn:E; [lia|]. cbn [bind].
  destruct (stats_line_total visible bytes) as (st & ->). cbn [bind].
  eexists. split; [reflexivity|]. cbn. auto.
Qed.

Lemma create_frame_zero_row (width : Z) (json : str) (tokens : list Z)
    (visible : Z) (decoded_json : str) (bytes : Z) :
  tokens_per_row width = 0 ->
  create_frame text_width width json tokens visible decoded_json bytes
  = Raise ZeroDivisionError.
Proof.
  intros H. unfold create_frame. cbv zeta. rewrite H.
  destruct tokens as [|tok tokens]; reflexivity.
Qed.

End FrameFacts.

(** A canvas that holds at least one box spacing between the paddings. *)
Lemma tokens_per_row_wide (width : Z) :
  token_spacing <= width - 2 * padding -> tokens_per_row width <> 0.
Proof.
  unfold tokens_per_row, token_spacing, padding. intros H.
  assert (1 <= (width - 2 * 25) / 56) by (apply Z.div_le_lower_bound; lia).
  lia.
Qed.

(** C3, as the code has it. The cell of token [i >= 0] is row
    [i // tokens_per_row] and column [i % tokens_per_row] with
    [tokens_per_row = (width - 2 * padding) // token_spacing], whenever
    that number is not zero, and it is at least one when the available
    width reaches [token_spacing]. Nothing clamps it: for an available
    width from 0 up to [token_spacing - 1] it is zero and the cell
    computation raises [ZeroDivisionError]. *)
Theorem grid_row_col (width i : Z) :
  0 <= i ->
  let tpr := tokens_per_row width in
  tpr = (width - 2 * padding) / token_spacing
  /\ (tpr <> 0 -> row_col tpr i = Ok (i / tpr, i mod tpr))
  /\ (token_spacing <= width - 2 * padding ->
      1 <= tpr /\ 0 <= i / tpr /\ 0 <= i mod tpr < tpr
      /\ i = (i / tpr) * tpr + i mod tpr)
  /\ (0 <= width - 2 * padding < token_spacing ->
      tpr = 0 /\ row_col tpr i = Raise ZeroDivisionError).
Proof.
  intros Hi. cbv zeta. split; [reflexivity|]. split; [apply row_col_ok|].
  unfold tokens_per_row, padding, token_spacing. split.
  - intros Hw.
    assert (1 <= (width - 2 * 25) / 56)
      by (apply Z.div_le_lower_bound; lia).
    repeat split.
    + assumption.
    + apply Z.div_pos; lia.
    + apply Z.mod_pos_bound; lia.
    + apply Z.mod_pos_bound; lia.
    + rewrite Z.mul_comm. apply Z.div_mod. lia.
  - intros Hw. rewrite Z.div_small by lia. split; reflexivity.
Qed.

Lemma grid_row_col_witness :
  0 <= 13 /\ row_col (tokens_per_row 700) 13 = Ok (1, 2).
Proof.
  split; [lia|].
  destruct (grid_row_col 700 13 ltac:(lia)) as (_ & H & _).
  rewrite H; [reflexivity|vm_compute; discriminate].
Defined.

(** C3 as stated fails at width 100: the available width is 50, at least
    1 and below [token_spacing], yet [tokens_per_row] is 0, not 1, and
    the cell of the first token, like the whole frame, raises. *)
Lemma grid_not_clamped :
  1 <= 100 - 2 * padding < token_spacing
  /\ tokens_per_row 100 = 0
  /\ tokens_per_row 100 <> 1
  /\ row_col (tokens_per_row 100) 0 = Raise ZeroDivisionError
  /\ create_frame Samples.mono 100 Samples.pod_json Samples.seven_tokens
       0 [] 0 = Raise ZeroDivisionError.
Proof.
  split; [vm_compute; split; [discriminate|reflexivity]|].
  split; [reflexivity|]. split; [discriminate|]. split; reflexivity.
Qed.

(** C9. With no visible token the statistics line is the placeholder and
    nothing is divided: [stats_line] never raises, it divides only when
    [visible_tokens > 0], and a frame built with [visible_tokens = 0],
    on a canvas that holds at least one box spacing between the paddings,
    carries the placeholder. *)
Theorem stats_line_zero_tokens :
  (forall bytes, stats_line 0 bytes = Ok UnknownStats)
  /\ (forall visible bytes, exists st, stats_line visible bytes = Ok st)
  /\ (forall visible bytes b v r,
        stats_line visible bytes = Ok (Compression b v r) ->
        0 < visible /\ b = bytes /\ v = visible
        /\ r = (inject_Z bytes / inject_Z visible)%Q)
  /\ (forall text_width width json tokens decoded_json bytes,
        token_spacing <= width - 2 * padding ->
        exists f,
          create_frame text_width width json tokens 0 decoded_json bytes = Ok f
          /\ stats_text f = UnknownStats).
Proof.
  split; [reflexivity|]. split; [apply stats_line_total|]. split.
  - intros visible bytes b v r. unfold stats_line, truediv.
    destruct ((visible >? 0) && (bytes >? 0)) eqn:E; [|discriminate].
    apply andb_prop in E. destruct E as [E _].
    destruct (visible =? 0) eqn:Z0; [lia|]. cbn [bind].
    intros [= <- <- <-]. repeat split. lia.
  - intros tw width json tokens d bytes H.
    destruct (create_frame_ok tw width json tokens 0 d bytes
                (tokens_per_row_wide width H))
      as (f & Hf & _ & _ & Hs).
    exists f. split; [exact Hf|].
    cbn in Hs. now injection Hs.
Qed.

Lemma stats_line_zero_tokens_witness :
  token_spacing <= 700 - 2 * padding
  /\ exists f,
       create_frame Samples.mono 700 Samples.pod_json Samples.seven_tokens
         0 [] 0 = Ok f
       /\ stats_text f = UnknownStats.
Proof.
  assert (H : token_spacing <= 700 - 2 * padding)
    by (vm_compute; discriminate).
  split; [exact H|].
  destruct stats_line_zero_tokens as (_ & _ & _ & F).
  exact (F Samples.mono 700 Samples.pod_json Samples.seven_tokens [] 0 H).
Defined.

(* ================================================================== *)
(** ** The frame schedule *)

Lemma utf8_len_ok (s : str) :
  encodable s = true -> exists n, utf8_len s = Ok n /\ 0 <= n.
Proof.
  induction s as [|c s IH]; cbn [encodable forallb utf8_len]; intros H.
  - exists 0. split; [reflexivity|lia].
  - apply andb_prop in H. destruct H as [Hc Hs].
    destruct (IH Hs) as (m & -> & Hm).
    unfold utf8_char_len.
    destruct ((55296 <=? c)%N && (c <=? 57343)%N); [discriminate|].
    destruct (c <? 128)%N; [|destruct (c <? 2048)%N; [|destruct (c <? 65536)%N]];
      cbn [bind]; eexists; (split; [reflexivity|lia]).
Qed.

Lemma byte_count_utf8 (s : str) : byte_count s = utf8_len s.
Proof. destruct s; reflexivity. Qed.

Lemma count_up_length (start : Z) (n : nat) :
  List.length (count_up start n) = n.
Proof.
  revert start. induction n as [|n IH]; intros start; cbn; [reflexivity|].
  now rewrite IH.
Qed.

Lemma count_up_lower (n : nat) : forall start,
  Forall (fun v => start <= v) (count_up start n).
Proof.
  induction n as [|n IH]; intros start; cbn [count_up]; constructor; [lia|].
  eapply Forall_impl; [|apply IH]. cbn. intros; lia.
Qed.

Lemma count_up_then_sorted (n : nat) : forall start final,
  start + Z.of_nat n - 1 <= final ->
  StronglySorted Z.le (count_up start n ++ [final]).
Proof.
  induction n as [|n IH]; intros start final H; cbn [count_up app].
  - repeat constructor.
  - constructor; [apply IH; lia|].
    apply Forall_app. split.
    + eapply Forall_impl; [|apply count_up_lower]. cbn. intros; lia.
    + constructor; [lia|constructor].
Qed.

Section ScheduleFacts.

Variable text_width : str -> Z.

Lemma token_frames_ok (width : Z) (json : str) (tokens : list Z)
    (dss : list (str * Z)) :
  tokens_per_row width <> 0 ->
  Forall (fun ds => exists n, byte_count (fst ds) = Ok n) dss ->
  forall i, exists fs,
    token_frames text_width width json tokens i dss = Ok fs
    /\ map visible_count fs = count_up (i + 1) (List.length dss).
Proof.
  intros Hw Hall. induction Hall as [|[d t] dss (n & Hn) _ IH]; intros i.
  - now exists [].
  - cbn [token_frames]. cbn [fst] in Hn. rewrite Hn. cbn [bind].
    destruct (create_frame_ok text_width width json tokens (i + 1)
                (or_braces d) n Hw) as (f & -> & Hl & _).
    cbn [bind]. destruct (IH (i + 1)) as (fs & -> & Hfs). cbn [bind].
    eexists. split; [reflexivity|].
    cbn [map List.length count_up]. rewrite Hfs. unfold visible_count.
    now rewrite Hl.
Qed.

Lemma final_decoded_countable (dss : list (str * Z)) :
  Forall (fun ds => exists n, byte_count (fst ds) = Ok n) dss ->
  exists n, byte_count (final_decoded_of dss) = Ok n.
Proof.
  intros Hall. destruct dss as [|d dss]; [now exists 2|].
  unfold final_decoded_of.
  rewrite Forall_forall in Hall. apply Hall.
  destruct (exists_last (l := d :: dss)) as (l' & a & E); [discriminate|].
  rewrite E, last_last. apply in_or_app. right. now left.
Qed.

Lemma generate_animation_ok (json : str) (tokens : list Z)
    (dss : list (str * Z)) (width frame_duration : Z) :
  tokens_per_row width <> 0 ->
  Forall (fun ds => exists n, byte_count (fst ds) = Ok n) dss ->
  exists anim fs fl n,
    generate_animation text_width json tokens dss width frame_duration = Ok anim
    /\ frames anim = fs ++ [fl]
    /\ map visible_count fs = 0 :: count_up 1 (List.length dss)
    /\ visible_count fl = len tokens
    /\ byte_count (final_decoded_of dss) = Ok n
    /\ stats_line (len tokens) n = Ok (stats_text fl)
    /\ durations anim
       = repeat frame_duration (S (List.length dss)) ++ [frame_duration * 3].
Proof.
  intros Hw Hall. unfold generate_animation.
  destruct (create_frame_ok text_width width json tokens 0 [] 0 Hw)
    as (f0 & -> & Hl0 & _).
  cbn [bind].
  destruct (token_frames_ok width json tokens dss Hw Hall 0)
    as (fs & -> & Hfs).
  cbn [bind].
  destruct (final_decoded_countable dss Hall) as (n & Hn).
  rewrite Hn. cbn [bind].
  destruct (create_frame_ok text_width width json tokens (len tokens)
              (final_decoded_of dss) n Hw) as (fl & -> & Hll & _ & Hst).
  cbn [bind]. cbv zeta.
  exists {| frames := (f0 :: fs) ++ [fl];
            durations := repeat frame_duration
                           (List.length ((f0 :: fs) ++ [fl]) - 1)%nat
                           ++ [frame_duration * 3] |}.
  exists (f0 :: fs), fl, n.
  split; [reflexivity|]. split; [reflexivity|]. split.
  { cbn [map]. rewrite Hfs. unfold visible_count. now rewrite Hl0. }
  split; [unfold visible_count; now rewrite Hll|].
  split; [reflexivity|]. split; [exact Hst|].
  cbn [durations]. f_equal. f_equal.
  rewrite length_app. cbn [List.length].
  rewrite <- (length_map visible_count fs), Hfs, count_up_length. lia.
Qed.

Lemma decoded_states_length (decode_prefix : list Z -> str * Z * Z)
    (tokens : list Z) :
  List.length (decoded_states_of decode_prefix tokens) = List.length tokens.
Proof. unfold decoded_states_of. now rewrite length_map, length_seq. Qed.

End ScheduleFacts.

(** C8. Driven as [main] drives it, on a canvas that holds at least one
    box spacing between the paddings, with a frame duration that is not
    negative and decoded texts that UTF-8 can encode,
    [generate_animation] builds a frame list whose visible-token counts
    are 0, 1, ..., N followed by N again, N the number of tokens: they
    start at 0, go up by one per decoded prefix, never decrease and end
    at N.  It hands the writer one duration per frame, and the last one
    is three times [frame_duration]. *)
Theorem schedule_monotone (text_width : str -> Z)
    (decode_prefix : list Z -> str * Z * Z)
    (json : str) (tokens : list Z) (width speed : Z) :
  token_spacing <= width - 2 * padding ->
  0 <= speed ->
  (forall prefix, encodable (fst (fst (decode_prefix prefix))) = true) ->
  exists anim,
    animate text_width decode_prefix json tokens width speed = Ok anim
    /\ map visible_count (frames anim)
       = count_up 0 (S (List.length tokens)) ++ [len tokens]
    /\ StronglySorted Z.le (map visible_count (frames anim))
    /\ durations anim = repeat speed (S (List.length tokens)) ++ [speed * 3]
    /\ List.length (durations anim) = List.length (frames anim).
Proof.
  intros Hwide _ Henc. unfold animate.
  pose proof (tokens_per_row_wide width Hwide) as Hw.
  assert (Hall : Forall (fun ds : str * Z => exists n, byte_count (fst ds) = Ok n)
                   (decoded_states_of decode_prefix tokens)).
  { unfold decoded_states_of. apply Forall_forall. intros ds Hin.
    apply in_map_iff in Hin. destruct Hin as (i & <- & _). cbn [fst].
    rewrite byte_count_utf8.
    destruct (utf8_len_ok _ (Henc (firstn (S i) tokens))) as (n & -> & _).
    now exists n. }
  destruct (generate_animation_ok text_width json tokens _ width speed Hw Hall)
    as (anim & fs & fl & n & Hrun & Hfr & Hfs & Hfl & _ & _ & Hdur).
  rewrite decoded_states_length in Hfs, Hdur.
  assert (Hv : map visible_count (frames anim)
               = count_up 0 (S (List.length tokens)) ++ [len tokens]).
  { rewrite Hfr, map_app, Hfs. cbn [map]. now rewrite Hfl. }
  exists anim. split; [exact Hrun|]. split; [exact Hv|]. split; [|split].
  - rewrite Hv. apply count_up_then_sorted. unfold len. lia.
  - exact Hdur.
  - rewrite <- (length_map visible_count (frames anim)), Hv, Hdur.
    rewrite !length_app, repeat_length, count_up_length. reflexivity.
Qed.

Lemma schedule_monotone_witness :
  token_spacing <= 700 - 2 * padding
  /\ exists anim,
       animate Samples.mono Samples.late_decode Samples.pod_json
         Samples.seven_tokens 700 800 = Ok anim
       /\ map visible_count (frames anim) = [0; 1; 2; 3; 4; 5; 6; 7; 7]
       /\ durations anim = [800; 800; 800; 800; 800; 800; 800; 800; 2400].
Proof.
  assert (Hw : token_spacing <= 700 - 2 * padding)
    by (vm_compute; discriminate).
  assert (Henc : forall prefix,
             encodable (fst (fst (Samples.late_decode prefix))) = true).
  { intros prefix. unfold Samples.late_decode.
    destruct (len prefix <? 7); reflexivity. }
  split; [exact Hw|].
  destruct (schedule_monotone Samples.mono Samples.late_decode Samples.pod_json
              Samples.seven_tokens 700 800 Hw ltac:(lia) Henc)
    as (anim & Hrun & Hv & _ & Hd & _).
  exists anim. split; [exact Hrun|]. split; [exact Hv|exact Hd].
Defined.

(** C4, as the code has it. For seven tokens and a [decode_prefix] that
    gives the empty text for every shorter prefix and the input text for
    the whole sequence, the input being a non-empty text that UTF-8 can
    encode, on a canvas that holds at least one box spacing between the
    paddings and with a frame duration that is not negative,
    [generate_animation] builds 1 + 7 + 1 frames: the initial frame, one
    frame per token and the final frame that repeats the last state.
    The last duration is three times [frame_duration], and the
    statistics of the last frame are the byte count of the input over
    7. *)
Theorem schedule_seven_tokens (text_width : str -> Z)
    (decode_prefix : list Z -> str * Z * Z)
    (json : str) (tokens : list Z) (n width speed : Z) :
  List.length tokens = 7%nat ->
  (forall prefix, (List.length prefix < 7)%nat ->
                  fst (fst (decode_prefix prefix)) = []) ->
  (forall prefix, List.length prefix = 7%nat ->
                  fst (fst (decode_prefix prefix)) = json) ->
  utf8_len json = Ok n -> 0 < n ->
  token_spacing <= width - 2 * padding ->
  0 <= speed ->
  exists anim fs fl,
    animate text_width decode_prefix json tokens width speed = Ok anim
    /\ frames anim = fs ++ [fl]
    /\ List.length (frames anim) = (1 + 7 + 1)%nat
    /\ List.length (durations anim) = List.length (frames anim)
    /\ last (durations anim) 0 = speed * 3
    /\ visible_count fl = 7
    /\ stats_text fl = Compression n 7 (inject_Z n / inject_Z 7)%Q.
Proof.
  intros Hlen Hshort Hfull Hn Hpos Hwide _. unfold animate.
  pose proof (tokens_per_row_wide width Hwide) as Hw.
  assert (Hall : Forall (fun ds : str * Z => exists n, byte_count (fst ds) = Ok n)
                   (decoded_states_of decode_prefix tokens)).
  { unfold decoded_states_of. apply Forall_forall. intros ds Hin.
    apply in_map_iff in Hin. destruct Hin as (i & <- & Hi).
    apply in_seq in Hi. cbn [fst]. rewrite byte_count_utf8.
    assert (Hp : List.length (firstn (S i) tokens) = S i)
      by (rewrite length_firstn; lia).
    destruct (Nat.eq_dec (S i) 7) as [E|E].
    - rewrite Hfull by lia. now exists n.
    - rewrite Hshort by lia. now exists 0. }
  destruct (generate_animation_ok text_width json tokens _ width speed Hw Hall)
    as (anim & fs & fl & m & Hrun & Hfr & Hfs & Hfl & Hm & Hst & Hdur).
  rewrite decoded_states_length, Hlen in Hfs, Hdur.
  assert (Hfinal : final_decoded_of (decoded_states_of decode_prefix tokens)
                   = json).
  { unfold decoded_states_of, final_decoded_of. rewrite Hlen.
    cbn [seq map last fst]. apply Hfull.
    rewrite length_firstn. lia. }
  rewrite Hfinal, byte_count_utf8, Hn in Hm. injection Hm as <-.
  assert (H7 : len tokens = 7) by (unfold len; rewrite Hlen; reflexivity).
  rewrite H7 in Hfl, Hst.
  rewrite stats_line_compression in Hst by lia. injection Hst as Hst.
  assert (Hcount : List.length (frames anim) = 9%nat).
  { rewrite Hfr, length_app, <- (length_map visible_count fs), Hfs.
    reflexivity. }
  exists anim, fs, fl. split; [exact Hrun|]. split; [exact Hfr|].
  split; [exact Hcount|]. split; [rewrite Hcount, Hdur; reflexivity|].
  split; [rewrite Hdur; apply last_last|].
  split; [exact Hfl|]. symmetry. exact Hst.
Qed.

Lemma schedule_seven_tokens_witness :
  utf8_len Samples.pod_json = Ok 32
  /\ token_spacing <= 700 - 2 * padding
  /\ exists anim fs fl,
       animate Samples.mono Samples.late_decode Samples.pod_json
         Samples.seven_tokens 700 800 = Ok anim
       /\ frames anim = fs ++ [fl]
       /\ List.length (frames anim) = 9%nat
       /\ last (durations anim) 0 = 2400
       /\ stats_text fl = Compression 32 7 (inject_Z 32 / inject_Z 7)%Q.
Proof.
  assert (Hshort : forall prefix, (List.length prefix < 7)%nat ->
                     fst (fst (Samples.late_decode prefix)) = []).
  { intros prefix H. unfold Samples.late_decode, len.
    destruct (Z.of_nat (List.length prefix) <? 7) eqn:E; [reflexivity|lia]. }
  assert (Hfull : forall prefix, List.length prefix = 7%nat ->
                    fst (fst (Samples.late_decode prefix)) = Samples.pod_json).
  { intros prefix H. unfold Samples.late_decode, len. now rewrite H. }
  assert (Hw : token_spacing <= 700 - 2 * padding)
    by (vm_compute; discriminate).
  split; [reflexivity|]. split; [exact Hw|].
  destruct (schedule_seven_tokens Samples.mono Samples.late_decode
              Samples.pod_json Samples.seven_tokens 32 700 800
              eq_refl Hshort Hfull eq_refl ltac:(lia) Hw ltac:(lia))
    as (anim & fs & fl & Hrun & Hfr & Hc & _ & Hd & _ & Hs).
  exists anim, fs, fl. repeat split; assumption.
Defined.

(** C4 as stated fails on the sample: the code emits one initial frame,
    so the claimed count is 1 + 7, and the schedule has 9 frames. *)
Lemma schedule_seven_tokens_count :
  exists anim,
    animate Samples.mono Samples.late_decode Samples.pod_json
      Samples.seven_tokens 700 800 = Ok anim
    /\ List.length (frames anim) = 9%nat
    /\ List.length (frames anim) <> (1 + 7)%nat.
Proof.
  eexists. split; [vm_compute; reflexivity|].
  split; [reflexivity|discriminate].
Qed.

Lemma draw_segments_wide_witness :
  Samples.mono (lit "'apiVersion'") > 40
  /\ nth_error
       (draw_segments Samples.mono 25 40 (25, 97)
          [(lit "{", COLORS json_bracket);
           (lit "'apiVersion'", COLORS json_value)]) 1
     = Some {| at_x := 45; at_y := 115;
               drawn := lit "'apiVersion'"; fill := COLORS json_value |}.
Proof.
  assert (H : Samples.mono (lit "'apiVersion'") > 40) by reflexivity.
  split; [exact H|].
  destruct (draw_segments_wide Samples.mono 25 97 40
              [(lit "{", COLORS json_bracket)] []
              (lit "'apiVersion'", COLORS json_value) H) as (E & _).
  exact E.
Defined.

(* ================================================================== *)
(** ** More on [draw_json_colored] *)

Lemma segments_concat (s : str) : List.concat (map fst (classify s)) = s.
Proof.
  unfold classify.
  pose proof (emitted_flush (scan s scan_init)) as E.
  rewrite emitted_scan in E. unfold emitted in E.
  rewrite current_text_flush, app_nil_r in E. exact E.
Qed.

Section DrawingMore.

Variable text_width : str -> Z.
Variables x max_width : Z.

Lemma cursor_after_cons cur seg segs :
  cursor_after text_width x max_width cur (seg :: segs)
  = cursor_after text_width x max_width
      (advance text_width x max_width cur seg) segs.
Proof. reflexivity. Qed.

Lemma advance_y cur seg :
  snd (advance text_width x max_width cur seg)
  = snd (wrap_cursor x max_width cur (text_width (fst seg))).
Proof. reflexivity. Qed.

(** The cursor only moves down, one [line_height] per wrap, and wraps at
    most once per segment. *)
Lemma cursor_after_rows segs : forall cur,
  exists k : nat,
    snd (cursor_after text_width x max_width cur segs)
    = snd cur + line_height * Z.of_nat k
    /\ (k <= List.length segs)%nat.
Proof.
  induction segs as [|seg segs IH]; intros cur.
  - exists 0%nat. cbn. split; [lia|lia].
  - rewrite cursor_after_cons.
    destruct (IH (advance text_width x max_width cur seg)) as (k & Hk & Hle).
    rewrite Hk, advance_y. unfold wrap_cursor.
    destruct ((fst cur + text_width (fst seg) >? x + max_width)
              && (fst cur >? x)); cbn [snd List.length].
    + exists (S k). split; [lia|lia].
    + exists k. split; [lia|lia].
Qed.

Lemma draw_segments_above segs : forall cur,
  Forall (fun d => at_y d <= snd (cursor_after text_width x max_width cur segs))
         (draw_segments text_width x max_width cur segs).
Proof.
  induction segs as [|seg segs IH]; intros cur; cbn [draw_segments];
    constructor.
  - rewrite cursor_after_cons.
    destruct (cursor_after_rows segs (advance text_width x max_width cur seg))
      as (k & -> & _).
    cbn [at_y place_segment]. rewrite advance_y. unfold line_height. lia.
  - rewrite cursor_after_cons. apply IH.
Qed.

Lemma draw_segments_right segs : forall cur,
  Forall (fun seg : segment => text_width (fst seg) <= max_width - 20) segs ->
  Forall (fun d => at_x d + text_width (drawn d) <= x + max_width)
         (draw_segments text_width x max_width cur segs).
Proof.
  induction segs as [|seg segs IH]; intros cur H; cbn [draw_segments];
    [constructor|].
  inversion H as [|? ? Hseg Hrest]; subst.
  constructor; [|apply IH, Hrest].
  cbn [at_x drawn place_segment]. unfold wrap_cursor.
  destruct (fst cur + text_width (fst seg) >? x + max_width) eqn:E1;
    destruct (fst cur >? x) eqn:E2; cbn [andb fst]; lia.
Qed.

Lemma draw_segments_left segs : forall cur,
  x <= fst cur ->
  Forall (fun seg : segment => 0 <= text_width (fst seg)) segs ->
  Forall (fun d => x <= at_x d)
         (draw_segments text_width x max_width cur segs).
Proof.
  induction segs as [|seg segs IH]; intros cur Hc H; cbn [draw_segments];
    [constructor|].
  inversion H as [|? ? Hseg Hrest]; subst.
  assert (Hw : x <= fst (wrap_cursor x max_width cur (text_width (fst seg)))).
  { unfold wrap_cursor.
    destruct ((fst cur + text_width (fst seg) >? x + max_width)
              && (fst cur >? x)); cbn [fst]; lia. }
  constructor; [exact Hw|].
  apply IH; [|exact Hrest]. unfold advance. cbn [fst]. lia.
Qed.

End DrawingMore.

Lemma draw_json_colored_band (text_width : str -> Z) (x y max_width : Z)
    (json_str : str) :
  Forall (fun d => y <= at_y d
                   <= y + snd (draw_json_colored text_width x y json_str max_width)
                      - line_height)
         (fst (draw_json_colored text_width x y json_str max_width)).
Proof.
  unfold draw_json_colored. cbn [fst snd].
  pose proof (draw_segments_below text_width x max_width
                (classify json_str) (x, y)) as Lo.
  pose proof (draw_segments_above text_width x max_width
                (classify json_str) (x, y)) as Hi.
  rewrite Forall_forall in *. intros d Hd.
  specialize (Lo d Hd). specialize (Hi d Hd). cbn [snd] in Lo. lia.
Qed.

(** X1. What [draw_json_colored] draws, read call after call, is the
    string it was given. *)
Theorem draw_json_colored_text (text_width : str -> Z) (x y max_width : Z)
    (json_str : str) :
  List.concat (map drawn (fst (draw_json_colored text_width x y json_str max_width)))
  = json_str.
Proof.
  unfold draw_json_colored. cbn [fst].
  rewrite <- (segments_concat json_str) at 2.
  rewrite <- (draw_segments_whole text_width x max_width (classify json_str) (x, y))
    at 2.
  rewrite map_map. reflexivity.
Qed.

(** X2. The height [draw_json_colored] returns is a whole number of lines,
    at least one and at most one more than the number of calls, and every
    call is drawn on one of those lines: between [y] and
    [y + height - line_height]. *)
Theorem draw_json_colored_height (text_width : str -> Z) (x y max_width : Z)
    (json_str : str) :
  let calls := fst (draw_json_colored text_width x y json_str max_width) in
  let height := snd (draw_json_colored text_width x y json_str max_width) in
  (exists k : nat,
     height = line_height * (Z.of_nat k + 1)
     /\ (k <= List.length calls)%nat)
  /\ Forall (fun d => y <= at_y d <= y + height - line_height) calls.
Proof.
  cbv zeta. unfold draw_json_colored. cbn [fst snd]. split.
  - destruct (cursor_after_rows text_width x max_width (classify json_str) (x, y))
      as (k & Hk & Hle).
    exists k. split; [rewrite Hk; cbn [snd]; lia|].
    rewrite <- (length_map (fun d => (drawn d, fill d))).
    now rewrite draw_segments_whole.
  - apply (draw_json_colored_band text_width x y max_width json_str).
Qed.

(** X3. When no segment is wider than [max_width - 20], nothing is drawn
    past the right edge [x + max_width]. *)
Theorem draw_segments_fit (text_width : str -> Z) (x y max_width : Z)
    (segs : list segment) :
  Forall (fun seg : segment => text_width (fst seg) <= max_width - 20) segs ->
  Forall (fun d => at_x d + text_width (drawn d) <= x + max_width)
         (draw_segments text_width x max_width (x, y) segs).
Proof. apply draw_segments_right. Qed.

Lemma draw_segments_fit_witness :
  Forall (fun d => at_x d + Samples.mono (drawn d) <= 25 + 120)
         (draw_segments Samples.mono 25 120 (25, 97)
            (classify Samples.pod_json)).
Proof.
  apply (draw_segments_fit Samples.mono 25 97 120 (classify Samples.pod_json)).
  vm_compute. repeat constructor; discriminate.
Defined.

(** X4. With widths that are not negative, nothing is drawn left of the
    margin [x]. *)
Theorem draw_segments_margin (text_width : str -> Z) (x y max_width : Z)
    (segs : list segment) :
  Forall (fun seg : segment => 0 <= text_width (fst seg)) segs ->
  Forall (fun d => x <= at_x d)
         (draw_segments text_width x max_width (x, y) segs).
Proof. apply draw_segments_left. cbn. lia. Qed.

Lemma draw_segments_margin_witness :
  Forall (fun d => 25 <= at_x d)
         (draw_segments Samples.mono 25 120 (25, 97)
            (classify Samples.pod_json)).
Proof.
  apply (draw_segments_margin Samples.mono 25 97 120 (classify Samples.pod_json)).
  vm_compute. repeat constructor; discriminate.
Defined.

(** X5. Two calls in a row that are on the same line are adjacent: the
    second starts where the text of the first ends. *)
Theorem draw_segments_adjacent (text_width : str -> Z) (x y max_width : Z)
    (segs : list segment) (k : nat) (p q : draw_text) :
  let calls := draw_segments text_width x max_width (x, y) segs in
  nth_error calls k = Some p ->
  nth_error calls (S k) = Some q ->
  at_y q = at_y p ->
  at_x q = at_x p + text_width (drawn p).
Proof.
  cbv zeta. intros Hp Hq Hy.
  pose proof (draw_segments_next _ _ _ _ _ _ _ _ Hp Hq) as E.
  unfold wrap_cursor, line_height in E. cbn [fst snd] in E.
  destruct ((at_x p + text_width (drawn p) + text_width (drawn q)
               >? x + max_width)
            && (at_x p + text_width (drawn p) >? x)).
  - injection E as _ Ey. lia.
  - now injection E as Ex _.
Qed.

Lemma draw_segments_adjacent_witness :
  exists p q,
    nth_error (draw_segments Samples.mono 25 650 (25, 97)
                 (classify Samples.pod_json)) 0 = Some p
    /\ nth_error (draw_segments Samples.mono 25 650 (25, 97)
                    (classify Samples.pod_json)) 1 = Some q
    /\ at_x q = at_x p + Samples.mono (drawn p).
Proof.
  eexists. eexists. split; [vm_compute; reflexivity|].
  split; [vm_compute; reflexivity|].
  apply (draw_segments_adjacent Samples.mono 25 97 650
           (classify Samples.pod_json) 0); reflexivity.
Defined.

(* ================================================================== *)
(** ** More on the segments *)

Lemma flush_segments_cases st :
  (current_text st = [] /\ flush_segment st = st)
  \/ (current_text st <> []
      /\ segments (flush_segment st)
         = segments st ++ [(current_text st, current_color st)]).
Proof.
  unfold flush_segment. destruct (current_text st) eqn:E.
  - left. split; reflexivity.
  - right. split; [discriminate|reflexivity].
Qed.

Ltac seg_ok_cases :=
  repeat split;
  try (cbn; intuition discriminate);
  try (cbn; auto 8);
  try (intros _; assumption);
  try (intros _; eexists; split; [reflexivity|assumption]).

Lemma seg_ok_flush st :
  cur_ok st -> Forall seg_ok (segments st) ->
  Forall seg_ok (segments (flush_segment st)).
Proof.
  intros Hc Hs. destruct (flush_segments_cases st) as [[_ ->]|[Hne ->]];
    [exact Hs|].
  apply Forall_app. split; [exact Hs|]. constructor; [|constructor].
  unfold seg_ok, segment_colors. cbn [fst snd].
  destruct Hc as [Ht|[[Hk|Hv] Hq]]; [rewrite Ht|rewrite Hk|rewrite Hv];
    seg_ok_cases.
Qed.

(** A flushed state takes one character under a new colour and flushes
    again: lines 254-257 and 260-263. *)
Lemma flush_single c col st :
  segments (flush_segment (append_char c (set_color col (flush_segment st))))
  = segments (flush_segment st) ++ [([c], col)].
Proof.
  unfold flush_segment at 1. cbn [current_text append_char set_color].
  rewrite current_text_flush. reflexivity.
Qed.

Lemma seg_ok_bracket c :
  char_in c (lit "{}[]") = true -> seg_ok ([c], COLORS json_bracket).
Proof.
  intros H. unfold seg_ok, segment_colors. cbn [fst snd]. seg_ok_cases.
Qed.

Lemma seg_ok_punct c :
  char_in c (lit ":,") = true -> seg_ok ([c], COLORS text_dim).
Proof.
  intros H. unfold seg_ok, segment_colors. cbn [fst snd]. seg_ok_cases.
Qed.

Lemma cur_ok_append c st : cur_ok st -> cur_ok (append_char c st).
Proof.
  intros [H|[H (r & Hr)]]; [now left|right].
  split; [exact H|]. cbn [current_text append_char]. rewrite Hr.
  now exists (r ++ [c]).
Qed.

Lemma scan_char_ok c rest st :
  cur_ok st /\ Forall seg_ok (segments st) ->
  cur_ok (scan_char c rest st) /\ Forall seg_ok (segments (scan_char c rest st)).
Proof.
  intros [Hc Hs]. unfold scan_char.
  destruct (escape_next st); [split; [apply cur_ok_append, Hc|exact Hs]|].
  destruct (N.eqb c BACKSLASH); [split; [apply cur_ok_append, Hc|exact Hs]|].
  destruct (N.eqb c QUOTE) eqn:Eq.
  - apply N.eqb_eq in Eq. subst c.
    destruct (negb (in_string st)); cbv zeta.
    + split; [|apply seg_ok_flush; assumption].
      right. cbn [current_color current_text append_char set_color set_string].
      rewrite current_text_flush.
      split; [destruct (key_lookahead rest); auto|now exists []].
    + split; [now left|].
      cbn [segments set_color set_string].
      apply seg_ok_flush; [apply cur_ok_append, Hc|exact Hs].
  - destruct (char_in c (lit "{}[]")) eqn:Eb; cbv zeta.
    + split; [now left|]. cbn [segments set_color].
      rewrite flush_single. apply Forall_app.
      split; [apply seg_ok_flush; assumption|].
      constructor; [apply seg_ok_bracket, Eb|constructor].
    + destruct (negb (in_string st) && char_in c (lit ":,")) eqn:Ep; cbv zeta.
      * apply andb_prop in Ep. destruct Ep as [_ Ep].
        split; [now left|]. cbn [segments set_color].
        rewrite flush_single. apply Forall_app.
        split; [apply seg_ok_flush; assumption|].
        constructor; [apply seg_ok_punct, Ep|constructor].
      * split; [apply cur_ok_append, Hc|exact Hs].
Qed.

Lemma scan_ok s : forall st,
  cur_ok st /\ Forall seg_ok (segments st) ->
  cur_ok (scan s st) /\ Forall seg_ok (segments (scan s st)).
Proof.
  induction s as [|c rest IH]; intros st H; cbn [scan]; [exact H|].
  apply IH, scan_char_ok, H.
Qed.

Lemma classify_seg_ok (s : str) : Forall seg_ok (classify s).
Proof.
  unfold classify.
  destruct (scan_ok s scan_init) as [Hc Hs].
  { split; [now left|constructor]. }
  apply seg_ok_flush; assumption.
Qed.

(** X6. A segment in the bracket colour is one of the characters
    [{ } [ ]] alone, and a segment in the punctuation colour is a colon or
    a comma alone. *)
Theorem classify_single_chars (s : str) :
  Forall (fun seg : segment =>
            (snd seg = COLORS json_bracket ->
             exists ch, fst seg = [ch] /\ char_in ch (lit "{}[]") = true)
            /\ (snd seg = COLORS text_dim ->
                exists ch, fst seg = [ch] /\ char_in ch (lit ":,") = true))
         (classify s).
Proof.
  eapply Forall_impl; [|apply classify_seg_ok].
  intros seg (_ & Hb & Hp & _). split; assumption.
Qed.

Lemma classify_single_chars_witness :
  Forall (fun seg : segment =>
            (snd seg = COLORS json_bracket ->
             exists ch, fst seg = [ch] /\ char_in ch (lit "{}[]") = true)
            /\ (snd seg = COLORS text_dim ->
                exists ch, fst seg = [ch] /\ char_in ch (lit ":,") = true))
         (classify Samples.pod_json).
Proof. exact (classify_single_chars Samples.pod_json). Defined.

(** X7. A segment in the key colour or in the value colour starts with a
    double quote. *)
Theorem classify_string_runs (s : str) :
  Forall (fun seg : segment =>
            snd seg = COLORS json_key \/ snd seg = COLORS json_value ->
            exists r, fst seg = QUOTE :: r)
         (classify s).
Proof.
  eapply Forall_impl; [|apply classify_seg_ok].
  intros seg (_ & _ & _ & Hq). exact Hq.
Qed.

Lemma classify_string_runs_witness :
  Forall (fun seg : segment =>
            snd seg = COLORS json_key \/ snd seg = COLORS json_value ->
            exists r, fst seg = QUOTE :: r)
         (classify Samples.pod_json).
Proof. exact (classify_string_runs Samples.pod_json). Defined.

(** X8. Segments carry no colour but the five of the scan: plain, key,
    value, bracket and punctuation. *)
Theorem classify_colors (s : str) :
  Forall (fun seg : segment => In (snd seg) segment_colors) (classify s).
Proof.
  eapply Forall_impl; [|apply classify_seg_ok].
  intros seg (H & _). exact H.
Qed.

(* ================================================================== *)
(** ** The key test and escaped characters *)

Lemma len_cons {A} (a : A) (l : list A) : len (a :: l) = 1 + len l.
Proof. unfold len. cbn [List.length]. lia. Qed.

Lemma len_nonneg {A} (l : list A) : 0 <= len l.
Proof. unfold len. lia. Qed.

Lemma find_from_lower c s : forall i,
  find_from c s i = -1 \/ i <= find_from c s i.
Proof.
  induction s as [|d s IH]; intros i; cbn [find_from]; [now left|].
  destruct (N.eqb d c); [right; lia|].
  destruct (IH (i + 1)) as [H|H]; [now left|right; lia].
Qed.

Lemma find_from_skip c pre post :
  char_in c pre = false ->
  forall i, find_from c (pre ++ post) i = find_from c post (i + len pre).
Proof.
  unfold char_in. induction pre as [|d pre IH]; intros H i; cbn [app find_from].
  - f_equal. unfold len. cbn. lia.
  - cbn [existsb] in H. apply orb_false_elim in H. destruct H as [Hd Hp].
    rewrite N.eqb_sym, Hd, (IH Hp), len_cons. f_equal. lia.
Qed.

Lemma find_from_present c s post :
  char_in c s = true ->
  forall i, find_from c (s ++ post) i = find_from c s i
            /\ i <= find_from c s i < i + len s.
Proof.
  unfold char_in. induction s as [|d s IH]; intros H i; [discriminate|].
  cbn [app find_from]. cbn [existsb] in H. rewrite len_cons.
  rewrite N.eqb_sym in H. destruct (N.eqb d c).
  - pose proof (len_nonneg s). split; [reflexivity|lia].
  - cbn [orb] in H. destruct (IH H (i + 1)) as (E & Hb).
    split; [exact E|lia].
Qed.

Lemma find_from_absent c s :
  char_in c s = false -> forall i, find_from c s i = -1.
Proof.
  intros H i. rewrite <- (app_nil_r s), (find_from_skip c s [] H). reflexivity.
Qed.

(** X9. The key test looks at the text up to the next double quote: when
    the rest of the input has a double quote, the run is a key exactly
    when a colon comes before that quote; when it has none, exactly when
    a colon comes at all.  The text after the closing quote plays no
    part. *)
Theorem key_lookahead_spec :
  (forall body tail,
     char_in QUOTE body = false ->
     key_lookahead (body ++ QUOTE :: tail) = char_in COLON body)
  /\ (forall rest,
        char_in QUOTE rest = false ->
        key_lookahead rest = char_in COLON rest).
Proof.
  split.
  - intros body tail Hq. unfold key_lookahead, find.
    rewrite (find_from_skip QUOTE body (QUOTE :: tail) Hq 0).
    cbn [find_from]. rewrite N.eqb_refl.
    pose proof (len_nonneg body) as Hl.
    destruct (char_in COLON body) eqn:Hc.
    + destruct (find_from_present COLON body (QUOTE :: tail) Hc 0) as (-> & Hb).
      destruct (find_from COLON body 0 =? -1) eqn:E1; [lia|].
      destruct (find_from COLON body 0 <? 0 + len body + 1) eqn:E2; [|lia].
      cbn. now rewrite orb_true_r.
    + rewrite (find_from_skip COLON body (QUOTE :: tail) Hc 0).
      cbn [find_from]. change (N.eqb QUOTE COLON) with false. cbv iota.
      destruct (find_from_lower COLON tail (0 + len body + 1)) as [->|Hlow];
        [reflexivity|].
      destruct (_ =? -1) eqn:E1; [reflexivity|].
      destruct (0 + len body =? -1) eqn:E2; [lia|].
      destruct (_ <? _) eqn:E3; [lia|reflexivity].
  - intros rest Hq. unfold key_lookahead, find.
    rewrite (find_from_absent QUOTE rest Hq 0).
    destruct (char_in COLON rest) eqn:Hc.
    + destruct (find_from_present COLON rest [] Hc 0) as (_ & Hb).
      destruct (_ =? -1) eqn:E1; [lia|reflexivity].
    + rewrite (find_from_absent COLON rest Hc 0). reflexivity.
Qed.

Lemma key_lookahead_spec_witness :
  char_in QUOTE (lit "apiVersion") = false
  /\ key_lookahead (lit "apiVersion':'v1'}") = false.
Proof.
  assert (H : char_in QUOTE (lit "apiVersion") = false) by reflexivity.
  split; [exact H|].
  destruct key_lookahead_spec as (K & _).
  exact (K (lit "apiVersion") (lit ":'v1'}") H).
Defined.

Lemma extend_extend st a b : extend (extend st a) b = extend st (a ++ b).
Proof. unfold extend. cbn. now rewrite app_assoc. Qed.

Lemma scan_item it rest st :
  in_string st = true -> escape_next st = false -> plain_ok it = true ->
  scan (item_chars it ++ rest) st = scan rest (extend st (item_chars it)).
Proof.
  intros Hs He Hp. destruct it as [c|c]; cbn [item_chars app scan]; f_equal.
  - cbn [plain_ok] in Hp.
    apply andb_prop in Hp. destruct Hp as [Hp Hb].
    apply andb_prop in Hp. destruct Hp as [Hbs Hq].
    apply negb_true_iff in Hb, Hbs, Hq.
    unfold scan_char. now rewrite He, Hbs, Hq, Hb, Hs.
  - unfold scan_char at 2. rewrite He. change (N.eqb BACKSLASH BACKSLASH) with true.
    cbv iota. unfold scan_char.
    cbn [escape_next append_char set_escape].
    destruct st as [sg ins ink en ct cc]. cbn in *. subst en.
    unfold extend, set_escape, append_char. cbn. now rewrite <- app_assoc.
Qed.

Lemma scan_body items : forall rest st,
  in_string st = true -> escape_next st = false ->
  forallb plain_ok items = true ->
  scan (body_chars items ++ rest) st = scan rest (extend st (body_chars items)).
Proof.
  unfold body_chars.
  induction items as [|it items IH]; intros rest st Hs He Hp; cbn [map List.concat].
  - cbn [app]. f_equal. destruct st. unfold extend. cbn. now rewrite app_nil_r.
  - cbn [forallb] in Hp. apply andb_prop in Hp. destruct Hp as [Hit Hp].
    rewrite <- app_assoc, (scan_item it _ st Hs He Hit).
    rewrite IH by (assumption || reflexivity).
    now rewrite extend_extend.
Qed.

(** X10. A string literal is one segment whatever it escapes: for a body
    made of characters other than the backslash, the double quote and the
    brackets, and of backslash pairs that may escape any character, the
    quoted text comes out whole, in the colour the key test gives it. *)
Theorem classify_string_literal (items : list body_item) :
  forallb plain_ok items = true ->
  let body := body_chars items in
  classify (QUOTE :: body ++ [QUOTE])
  = [ (QUOTE :: body ++ [QUOTE],
       COLORS (if key_lookahead (body ++ [QUOTE])
               then json_key else json_value)) ].
Proof.
  intros Hp. cbv zeta. unfold classify. cbn [scan].
  set (k := key_lookahead (body_chars items ++ [QUOTE])).
  assert (E0 : scan_char QUOTE (body_chars items ++ [QUOTE]) scan_init
               = {| segments := []; in_string := true; in_key := k;
                    escape_next := false; current_text := [QUOTE];
                    current_color := COLORS (if k then json_key
                                             else json_value) |})
    by reflexivity.
  rewrite E0, scan_body by (assumption || reflexivity).
  reflexivity.
Qed.

Lemma classify_string_literal_witness :
  classify (lit "'b\'c'")
  = [ (lit "'b\'c'", COLORS json_value) ].
Proof.
  exact (classify_string_literal [Plain 98%N; Escaped QUOTE; Plain 99%N]
           eq_refl).
Defined.

(* ================================================================== *)
(** ** The token boxes of a frame *)

Lemma token_boxes_nth (tpr y visible : Z) (tokens : list Z) :
  tpr <> 0 ->
  forall i bs, token_boxes tpr y visible i tokens = Ok bs ->
  forall k tok, nth_error tokens k = Some tok ->
  nth_error bs k
  = Some {| box_x := padding + ((i + Z.of_nat k) mod tpr) * token_spacing;
            box_y := y + ((i + Z.of_nat k) / tpr) * (token_box_height + 8);
            box_token := tok;
            filled := i + Z.of_nat k <? visible;
            newest := (i + Z.of_nat k <? visible)
                      && (i + Z.of_nat k =? visible - 1) |}.
Proof.
  intros Ht. induction tokens as [|t tokens IH]; intros i bs H k tok Hk.
  - destruct k; discriminate.
  - cbn [token_boxes] in H. rewrite (row_col_ok _ _ Ht) in H. cbn [bind] in H.
    destruct (token_boxes tpr y visible (i + 1) tokens) as [bs'|] eqn:E;
      [|discriminate].
    cbn [bind fst snd] in H. injection H as <-.
    destruct k as [|k].
    + cbn [nth_error] in Hk |- *. injection Hk as <-.
      replace (i + Z.of_nat 0) with i by lia. reflexivity.
    + cbn [nth_error] in Hk |- *.
      rewrite (IH (i + 1) bs' E k tok Hk).
      replace (i + 1 + Z.of_nat k) with (i + Z.of_nat (S k)) by lia.
      reflexivity.
Qed.

Lemma row_below_num_rows (tpr n k : Z) :
  1 <= tpr -> 0 <= k < n -> 0 <= k / tpr < (n + tpr - 1) / tpr.
Proof.
  intros Ht Hk. split; [apply Z.div_pos; lia|].
  replace (n + tpr - 1) with (n - 1 + 1 * tpr) by lia.
  rewrite Z.div_add by lia.
  assert (k / tpr <= (n - 1) / tpr) by (apply Z.div_le_mono; lia). lia.
Qed.

Lemma tokens_per_row_fits (width : Z) :
  token_spacing <= width - 2 * padding ->
  1 <= tokens_per_row width
  /\ tokens_per_row width * token_spacing <= width - 2 * padding.
Proof.
  unfold tokens_per_row, token_spacing, padding. intros H. split.
  - apply Z.div_le_lower_bound; lia.
  - rewrite Z.mul_comm. apply Z.mul_div_le. lia.
Qed.

Section BoxFacts.

Variable text_width : str -> Z.

(** What [create_frame] puts in the frame, read off its body. *)
Lemma create_frame_parts (width : Z) (json : str) (tokens : list Z)
    (visible : Z) (decoded_json : str) (bytes : Z) (f : frame) :
  create_frame text_width width json tokens visible decoded_json bytes = Ok f ->
  tokens_per_row width <> 0
  /\ token_boxes (tokens_per_row width) (grid_top text_width width json)
       visible 0 tokens = Ok (boxes f)
  /\ input_view f
     = fst (draw_json_colored text_width padding (padding + 35 + 15 + 22)
              json (width - 2 * padding))
  /\ decoded f
     = match decoded_json with
       | [] => Waiting
       | _ :: _ =>
           DecodedJson
             (fst (draw_json_colored text_width padding
                     (decoded_top text_width width json tokens)
                     decoded_json (width - 2 * padding)))
       end.
Proof.
  unfold create_frame. cbv zeta. fold (grid_top text_width width json).
  destruct (token_boxes _ _ _ 0 tokens) as [bs|] eqn:Eb; [|discriminate].
  cbn [bind]. unfold floordiv.
  destruct (tokens_per_row width =? 0) eqn:Et; [discriminate|].
  cbn [bind]. destruct (stats_line visible bytes); [|discriminate].
  cbn [bind]. intros [= <-]. cbn [boxes input_view decoded].
  split; [lia|]. split; [reflexivity|]. split; reflexivity.
Qed.

Lemma frame_box (width : Z) (json : str) (tokens : list Z)
    (visible : Z) (decoded_json : str) (bytes : Z) (f : frame) :
  create_frame text_width width json tokens visible decoded_json bytes = Ok f ->
  forall k b, nth_error (boxes f) k = Some b ->
  Z.of_nat k < len tokens
  /\ box_x b = padding + (Z.of_nat k mod tokens_per_row width) * token_spacing
  /\ box_y b = grid_top text_width width json
               + (Z.of_nat k / tokens_per_row width) * (token_box_height + 8)
  /\ nth_error tokens k = Some (box_token b)
  /\ filled b = (Z.of_nat k <? visible)
  /\ newest b = (Z.of_nat k =? visible - 1).
Proof.
  intros Hf k b Hb.
  destruct (create_frame_parts _ _ _ _ _ _ _ Hf) as (Ht & Hbs & _).
  destruct (token_boxes_ok _ (grid_top text_width width json) visible tokens Ht 0)
    as (bs & E & Hmap).
  rewrite Hbs in E. injection E as <-.
  assert (Hk : (k < List.length tokens)%nat).
  { rewrite <- Hmap, length_map. apply nth_error_Some. now rewrite Hb. }
  destruct (nth_error tokens k) as [tok|] eqn:Etok;
    [|apply nth_error_None in Etok; lia].
  rewrite (token_boxes_nth _ _ _ _ Ht 0 _ Hbs k tok Etok) in Hb.
  injection Hb as <-. cbn [box_x box_y box_token filled newest].
  replace (0 + Z.of_nat k) with (Z.of_nat k) by lia. unfold len.
  split; [lia|]. split; [reflexivity|]. split; [reflexivity|].
  split; [reflexivity|]. split; [reflexivity|].
  destruct (Z.of_nat k <? visible) eqn:E1;
    destruct (Z.of_nat k =? visible - 1) eqn:E2;
    cbn; try reflexivity; lia.
Qed.

End BoxFacts.

(** X11. On a canvas that holds at least one box spacing between the
    paddings, [create_frame] builds a frame with one box per token, in
    order: box [k] carries
    token [k], sits at column [k % tokens_per_row] and row
    [k // tokens_per_row] of the grid, is filled exactly when
    [k < visible_tokens] and glows exactly when [k = visible_tokens - 1]. *)
Theorem create_frame_boxes (text_width : str -> Z) (width : Z) (json : str)
    (tokens : list Z) (visible : Z) (decoded_json : str) (bytes : Z) :
  token_spacing <= width - 2 * padding ->
  exists f,
    create_frame text_width width json tokens visible decoded_json bytes = Ok f
    /\ map box_token (boxes f) = tokens
    /\ forall k b, nth_error (boxes f) k = Some b ->
         box_x b = padding + (Z.of_nat k mod tokens_per_row width) * token_spacing
         /\ box_y b = grid_top text_width width json
                      + (Z.of_nat k / tokens_per_row width)
                        * (token_box_height + 8)
         /\ filled b = (Z.of_nat k <? visible)
         /\ newest b = (Z.of_nat k =? visible - 1).
Proof.
  intros Hwide. pose proof (tokens_per_row_wide width Hwide) as Ht.
  destruct (create_frame_ok text_width width json tokens visible decoded_json
              bytes Ht) as (f & Hf & _ & Hmap & _).
  exists f. split; [exact Hf|]. split; [exact Hmap|].
  intros k b Hb.
  destruct (frame_box text_width _ _ _ _ _ _ _ Hf k b Hb)
    as (_ & Hx & Hy & _ & Hfl & Hn).
  auto.
Qed.

Lemma create_frame_boxes_witness :
  token_spacing <= 700 - 2 * padding
  /\ exists f,
       create_frame Samples.mono 700 Samples.pod_json Samples.seven_tokens
         3 [] 0 = Ok f
       /\ map box_token (boxes f) = Samples.seven_tokens.
Proof.
  assert (Ht : token_spacing <= 700 - 2 * padding)
    by (vm_compute; discriminate).
  split; [exact Ht|].
  destruct (create_frame_boxes Samples.mono 700 Samples.pod_json
              Samples.seven_tokens 3 [] 0 Ht) as (f & Hf & Hm & _).
  exists f. split; assumption.
Defined.

(** X12. When the available width holds at least one box spacing, every
    token box of the frame lies between the left padding and the right
    padding, and no two boxes overlap: of two boxes, the later one is
    either further right on the same row or on a lower row. *)
Theorem create_frame_boxes_apart (text_width : str -> Z) (width : Z)
    (json : str) (tokens : list Z) (visible : Z) (decoded_json : str)
    (bytes : Z) :
  token_spacing <= width - 2 * padding ->
  exists f,
    create_frame text_width width json tokens visible decoded_json bytes = Ok f
    /\ Forall (fun b => padding <= box_x b
                        /\ box_x b + token_box_width <= width - padding)
              (boxes f)
    /\ forall k1 k2 b1 b2,
         (k1 < k2)%nat ->
         nth_error (boxes f) k1 = Some b1 ->
         nth_error (boxes f) k2 = Some b2 ->
         (box_y b1 = box_y b2 /\ box_x b1 + token_box_width < box_x b2)
         \/ box_y b1 + token_box_height < box_y b2.
Proof.
  intros Hw. destruct (tokens_per_row_fits width Hw) as (H1 & Hfit).
  destruct (create_frame_ok text_width width json tokens visible decoded_json
              bytes ltac:(lia)) as (f & Hf & _).
  exists f. split; [exact Hf|]. split.
  - apply Forall_forall. intros b Hin.
    apply In_nth_error in Hin. destruct Hin as (k & Hk).
    destruct (frame_box text_width _ _ _ _ _ _ _ Hf k b Hk) as (_ & -> & _).
    pose proof (Z.mod_pos_bound (Z.of_nat k) (tokens_per_row width) ltac:(lia)).
    unfold token_spacing, token_box_width, padding in *. nia.
  - intros k1 k2 b1 b2 Hlt Hb1 Hb2.
    destruct (frame_box text_width _ _ _ _ _ _ _ Hf k1 b1 Hb1)
      as (_ & -> & -> & _).
    destruct (frame_box text_width _ _ _ _ _ _ _ Hf k2 b2 Hb2)
      as (_ & -> & -> & _).
    set (t := tokens_per_row width) in *.
    pose proof (Z.div_mod (Z.of_nat k1) t ltac:(lia)) as D1.
    pose proof (Z.div_mod (Z.of_nat k2) t ltac:(lia)) as D2.
    pose proof (Z.mod_pos_bound (Z.of_nat k1) t ltac:(lia)) as M1.
    pose proof (Z.mod_pos_bound (Z.of_nat k2) t ltac:(lia)) as M2.
    assert (Hr : Z.of_nat k1 / t <= Z.of_nat k2 / t)
      by (apply Z.div_le_mono; lia).
    unfold token_spacing, token_box_width, token_box_height in *.
    destruct (Z.eq_dec (Z.of_nat k1 / t) (Z.of_nat k2 / t)) as [E|E].
    + left. rewrite E in *. split; [reflexivity|nia].
    + right. nia.
Qed.

Lemma create_frame_boxes_apart_witness :
  token_spacing <= 700 - 2 * padding
  /\ exists f,
       create_frame Samples.mono 700 Samples.pod_json Samples.seven_tokens
         3 [] 0 = Ok f
       /\ Forall (fun b => padding <= box_x b
                           /\ box_x b + token_box_width <= 700 - padding)
                 (boxes f).
Proof.
  assert (Hw : token_spacing <= 700 - 2 * padding) by (vm_compute; discriminate).
  split; [exact Hw|].
  destruct (create_frame_boxes_apart Samples.mono 700 Samples.pod_json
              Samples.seven_tokens 3 [] 0 Hw) as (f & Hf & Hb & _).
  exists f. split; assumption.
Defined.

(** X13. When the available width holds at least one box spacing, the
    three parts of a frame come one under the other: every token box
    starts at least 25 pixels below the line of every call of the input
    JSON, and every call of the decoded JSON is below the bottom of every
    token box. *)
Theorem create_frame_stacked (text_width : str -> Z) (width : Z)
    (json : str) (tokens : list Z) (visible : Z) (decoded_json : str)
    (bytes : Z) :
  token_spacing <= width - 2 * padding ->
  exists f,
    create_frame text_width width json tokens visible decoded_json bytes = Ok f
    /\ (forall d b, In d (input_view f) -> In b (boxes f) ->
          at_y d + line_height + 25 <= box_y b)
    /\ (forall b calls d, In b (boxes f) -> decoded f = DecodedJson calls ->
          In d calls -> box_y b + token_box_height < at_y d).
Proof.
  intros Hw. destruct (tokens_per_row_fits width Hw) as (H1 & _).
  destruct (create_frame_ok text_width width json tokens visible decoded_json
              bytes ltac:(lia)) as (f & Hf & _).
  destruct (create_frame_parts text_width _ _ _ _ _ _ _ Hf)
    as (_ & _ & Hin & Hdec).
  exists f. split; [exact Hf|]. split.
  - intros d b Hd Hb.
    apply In_nth_error in Hb. destruct Hb as (k & Hk).
    destruct (frame_box text_width _ _ _ _ _ _ _ Hf k b Hk)
      as (Hlt & _ & -> & _).
    destruct (row_below_num_rows (tokens_per_row width) (len tokens)
                (Z.of_nat k) H1 ltac:(lia)) as (Hrow & _).
    rewrite Hin in Hd.
    pose proof (draw_json_colored_band text_width padding
                  (padding + 35 + 15 + 22) (width - 2 * padding) json) as Hall.
    rewrite Forall_forall in Hall. specialize (Hall d Hd).
    unfold grid_top, token_box_height, line_height in *. nia.
  - intros b calls d Hb Hc Hd.
    apply In_nth_error in Hb. destruct Hb as (k & Hk).
    destruct (frame_box text_width _ _ _ _ _ _ _ Hf k b Hk)
      as (Hlt & _ & -> & _).
    destruct (row_below_num_rows (tokens_per_row width) (len tokens)
                (Z.of_nat k) H1 ltac:(lia)) as (_ & Hrow).
    rewrite Hdec in Hc. destruct decoded_json as [|c0 dj]; [discriminate|].
    injection Hc as <-.
    unfold draw_json_colored in Hd. cbn [fst] in Hd.
    pose proof (draw_segments_below text_width padding (width - 2 * padding)
                  (classify (c0 :: dj))
                  (padding, decoded_top text_width width json tokens)) as Lo.
    rewrite Forall_forall in Lo. specialize (Lo d Hd). cbn [snd] in Lo.
    unfold decoded_top, num_rows, token_box_height in *. nia.
Qed.

Lemma create_frame_stacked_witness :
  token_spacing <= 700 - 2 * padding
  /\ exists f,
       create_frame Samples.mono 700 Samples.pod_json Samples.seven_tokens
         7 Samples.pod_json 32 = Ok f
       /\ (forall d b, In d (input_view f) -> In b (boxes f) ->
             at_y d + line_height + 25 <= box_y b).
Proof.
  assert (Hw : token_spacing <= 700 - 2 * padding) by (vm_compute; discriminate).
  split; [exact Hw|].
  destruct (create_frame_stacked Samples.mono 700 Samples.pod_json
              Samples.seven_tokens 7 Samples.pod_json 32 Hw)
    as (f & Hf & Hb & _).
  exists f. split; assumption.
Defined.

(* ================================================================== *)
(** ** More on [generate_animation] *)

Lemma utf8_len_raises (s : str) :
  encodable s = false -> utf8_len s = Raise UnicodeEncodeError.
Proof.
  induction s as [|c s IH]; cbn [encodable forallb utf8_len]; [discriminate|].
  intros H. unfold utf8_char_len.
  destruct ((55296 <=? c)%N && (c <=? 57343)%N) eqn:Es.
  - apply andb_prop in Es. destruct Es as [Elo _].
    replace (c <? 128)%N with false by (symmetry; apply N.ltb_ge; apply N.leb_le in Elo; lia).
    replace (c <? 2048)%N with false by (symmetry; apply N.ltb_ge; apply N.leb_le in Elo; lia).
    reflexivity.
  - cbn [negb andb] in H. rewrite (IH H).
    destruct (c <? 128)%N; [|destruct (c <? 2048)%N; [|destruct (c <? 65536)%N]];
      reflexivity.
Qed.

Lemma encodable_countable (dss : list (str * Z)) :
  Forall (fun ds : str * Z => encodable (fst ds) = true) dss ->
  Forall (fun ds : str * Z => exists n, byte_count (fst ds) = Ok n) dss.
Proof.
  apply Forall_impl. intros ds H. rewrite byte_count_utf8.
  destruct (utf8_len_ok _ H) as (n & -> & _). now exists n.
Qed.

Lemma total_duration_hold (d : Z) (n : nat) :
  total_duration (repeat d n ++ [d * 3]) = d * (Z.of_nat n + 3).
Proof.
  unfold total_duration. induction n as [|n IH]; cbn [repeat app fold_right].
  - lia.
  - rewrite IH. lia.
Qed.

Lemma final_decoded_snoc (dss : list (str * Z)) (d : str) (t : Z) :
  final_decoded_of (dss ++ [(d, t)]) = d.
Proof.
  unfold final_decoded_of. rewrite last_last.
  destruct dss; reflexivity.
Qed.

Section ScheduleMore.

Variable text_width : str -> Z.

Lemma token_frames_snoc (width : Z) (json : str) (tokens : list Z)
    (dss : list (str * Z)) (d : str) (t : Z) :
  forall i fs n f,
    token_frames text_width width json tokens i dss = Ok fs ->
    byte_count d = Ok n ->
    create_frame text_width width json tokens (i + len dss + 1) (or_braces d) n
    = Ok f ->
    token_frames text_width width json tokens i (dss ++ [(d, t)])
    = Ok (fs ++ [f]).
Proof.
  induction dss as [|[d0 t0] dss IH]; intros i fs n f Hfs Hn Hf.
  - cbn [token_frames] in Hfs. injection Hfs as <-.
    cbn [app token_frames]. rewrite Hn. cbn [bind].
    replace (i + len (@nil (str * Z)) + 1) with (i + 1) in Hf
      by (unfold len; cbn; lia).
    rewrite Hf. reflexivity.
  - cbn [app token_frames] in Hfs |- *.
    destruct (byte_count d0) as [n0|]; [|discriminate]. cbn [bind] in Hfs |- *.
    destruct (create_frame text_width width json tokens (i + 1) (or_braces d0) n0)
      as [f0|]; [|discriminate].
    cbn [bind] in Hfs |- *.
    destruct (token_frames text_width width json tokens (i + 1) dss)
      as [fs0|] eqn:E; [|discriminate].
    cbn [bind] in Hfs. injection Hfs as <-.
    rewrite (IH (i + 1) fs0 n f E Hn).
    + reflexivity.
    + rewrite <- Hf. f_equal. rewrite len_cons. lia.
Qed.

Lemma token_frames_raises (width : Z) (json : str) (tokens : list Z)
    (dss : list (str * Z)) :
  tokens_per_row width <> 0 ->
  Exists (fun ds : str * Z => encodable (fst ds) = false) dss ->
  forall i,
    token_frames text_width width json tokens i dss = Raise UnicodeEncodeError.
Proof.
  intros Ht Hex. induction Hex as [[d t] dss Hd|[d t] dss _ IH]; intros i;
    cbn [token_frames].
  - cbn [fst] in Hd. now rewrite byte_count_utf8, (utf8_len_raises d Hd).
  - destruct (encodable d) eqn:Ed.
    + rewrite byte_count_utf8.
      destruct (utf8_len_ok d Ed) as (n & -> & _). cbn [bind].
      destruct (create_frame_ok text_width width json tokens (i + 1)
                  (or_braces d) n Ht) as (f & -> & _).
      cbn [bind]. now rewrite IH.
    + now rewrite byte_count_utf8, (utf8_len_raises d Ed).
Qed.

End ScheduleMore.

(** X14. On a canvas that holds at least one box spacing between the
    paddings, with a frame duration that is not negative and decoded
    texts that UTF-8 can encode, [generate_animation] builds two frames
    more than there are decoded states and hands the writer one duration
    for each; the durations add up to [frame_duration] times the number
    of decoded states plus four. *)
Theorem generate_animation_counts (text_width : str -> Z) (json : str)
    (tokens : list Z) (dss : list (str * Z)) (width frame_duration : Z) :
  token_spacing <= width - 2 * padding ->
  0 <= frame_duration ->
  Forall (fun ds : str * Z => encodable (fst ds) = true) dss ->
  exists anim,
    generate_animation text_width json tokens dss width frame_duration = Ok anim
    /\ List.length (frames anim) = (List.length dss + 2)%nat
    /\ List.length (durations anim) = List.length (frames anim)
    /\ total_duration (durations anim) = frame_duration * (len dss + 4).
Proof.
  intros Hwide _ Henc. pose proof (tokens_per_row_wide width Hwide) as Ht.
  destruct (generate_animation_ok text_width json tokens dss width
              frame_duration Ht (encodable_countable dss Henc))
    as (anim & fs & fl & n & Hrun & Hfr & Hfs & _ & _ & _ & Hdur).
  assert (Hlen : List.length (frames anim) = (List.length dss + 2)%nat).
  { rewrite Hfr, length_app, <- (length_map visible_count fs), Hfs.
    cbn [List.length]. rewrite count_up_length. lia. }
  exists anim. split; [exact Hrun|]. split; [exact Hlen|]. split.
  - rewrite Hlen, Hdur, length_app, repeat_length. cbn [List.length]. lia.
  - rewrite Hdur, total_duration_hold. unfold len. f_equal. lia.
Qed.

Lemma generate_animation_counts_witness :
  token_spacing <= 700 - 2 * padding
  /\ exists anim,
       generate_animation Samples.mono Samples.pod_json Samples.seven_tokens
         [(Samples.pod_json, 11)] 700 800 = Ok anim
       /\ List.length (frames anim) = 3%nat
       /\ total_duration (durations anim) = 4000.
Proof.
  assert (Ht : token_spacing <= 700 - 2 * padding)
    by (vm_compute; discriminate).
  split; [exact Ht|].
  destruct (generate_animation_counts Samples.mono Samples.pod_json
              Samples.seven_tokens [(Samples.pod_json, 11)] 700 800 Ht
              ltac:(lia) ltac:(repeat constructor))
    as (anim & Hrun & Hl & _ & Hd).
  exists anim. split; [exact Hrun|]. split; [exact Hl|exact Hd].
Defined.

(** X15. For an available width from 0 up to [token_spacing - 1], that
    is a [width] from 50 to 105, [generate_animation] raises
    [ZeroDivisionError] whatever the text, the tokens and the decoded
    states are. *)
Theorem generate_animation_narrow (text_width : str -> Z) (json : str)
    (tokens : list Z) (dss : list (str * Z)) (width frame_duration : Z) :
  0 <= width - 2 * padding < token_spacing ->
  generate_animation text_width json tokens dss width frame_duration
  = Raise ZeroDivisionError.
Proof.
  intros Hw. unfold generate_animation.
  rewrite create_frame_zero_row; [reflexivity|].
  unfold tokens_per_row. apply Z.div_small. exact Hw.
Qed.

Lemma generate_animation_narrow_witness :
  generate_animation Samples.mono Samples.pod_json Samples.seven_tokens
    [] 105 800 = Raise ZeroDivisionError.
Proof.
  apply generate_animation_narrow. vm_compute.
  split; [discriminate|reflexivity].
Defined.

(** X16. On a canvas that holds at least one box spacing between the
    paddings, a decoded text with a lone surrogate makes
    [generate_animation] raise [UnicodeEncodeError]. *)
Theorem generate_animation_surrogate (text_width : str -> Z) (json : str)
    (tokens : list Z) (dss : list (str * Z)) (width frame_duration : Z) :
  token_spacing <= width - 2 * padding ->
  Exists (fun ds : str * Z => encodable (fst ds) = false) dss ->
  generate_animation text_width json tokens dss width frame_duration
  = Raise UnicodeEncodeError.
Proof.
  intros Hwide Hex. pose proof (tokens_per_row_wide width Hwide) as Ht.
  unfold generate_animation.
  destruct (create_frame_ok text_width width json tokens 0 [] 0 Ht)
    as (f0 & -> & _).
  cbn [bind]. now rewrite (token_frames_raises text_width width json tokens dss Ht Hex).
Qed.

Lemma generate_animation_surrogate_witness :
  generate_animation Samples.mono Samples.pod_json Samples.seven_tokens
    [([55296%N], 11)] 700 800 = Raise UnicodeEncodeError.
Proof.
  apply generate_animation_surrogate.
  - vm_compute. discriminate.
  - constructor. reflexivity.
Defined.

(** X17. On a canvas that holds at least one box spacing between the
    paddings and with a frame duration that is not negative, when there
    is one decoded state per token and the last decoded text is not
    empty, the final frame is the same frame as the one before it. *)
Theorem generate_animation_final_repeats (text_width : str -> Z) (json : str)
    (tokens : list Z) (dss : list (str * Z)) (d : str) (t : Z)
    (width frame_duration : Z) :
  token_spacing <= width - 2 * padding ->
  0 <= frame_duration ->
  Forall (fun ds : str * Z => encodable (fst ds) = true) (dss ++ [(d, t)]) ->
  List.length tokens = List.length (dss ++ [(d, t)]) ->
  d <> [] ->
  exists anim fs f,
    generate_animation text_width json tokens (dss ++ [(d, t)]) width
      frame_duration = Ok anim
    /\ frames anim = fs ++ [f; f].
Proof.
  intros Hwide _ Henc Hlen Hd.
  pose proof (tokens_per_row_wide width Hwide) as Ht.
  unfold generate_animation.
  apply Forall_app in Henc. destruct Henc as [Henc Hlast].
  inversion Hlast as [|? ? Hde _]; subst. cbn [fst] in Hde.
  destruct (create_frame_ok text_width width json tokens 0 [] 0 Ht)
    as (f0 & -> & _).
  cbn [bind].
  destruct (token_frames_ok text_width width json tokens dss Ht
              (encodable_countable dss Henc) 0) as (fs & Hfs & _).
  destruct (utf8_len_ok d Hde) as (n & Hn & _).
  rewrite <- byte_count_utf8 in Hn.
  destruct (create_frame_ok text_width width json tokens (0 + len dss + 1)
              (or_braces d) n Ht) as (f & Hf & _).
  rewrite (token_frames_snoc text_width width json tokens dss d t 0 fs n f
             Hfs Hn Hf).
  cbn [bind]. rewrite final_decoded_snoc, Hn. cbn [bind].
  assert (Hfinal : create_frame text_width width json tokens (len tokens) d n
                   = Ok f).
  { rewrite <- Hf. f_equal.
    - unfold len. rewrite Hlen, length_app. cbn [List.length]. lia.
    - destruct d; [contradiction|reflexivity]. }
  rewrite Hfinal. cbn [bind]. cbv zeta.
  eexists. exists (f0 :: fs), f. split; [reflexivity|].
  cbn [frames app]. f_equal. rewrite <- app_assoc. reflexivity.
Qed.

Lemma generate_animation_final_repeats_witness :
  exists anim fs f,
    generate_animation Samples.mono Samples.pod_json [11]
      [(Samples.pod_json, 11)] 700 800 = Ok anim
    /\ frames anim = fs ++ [f; f].
Proof.
  apply (generate_animation_final_repeats Samples.mono Samples.pod_json
           [11] [] Samples.pod_json 11 700 800).
  - vm_compute. discriminate.
  - lia.
  - repeat constructor.
  - reflexivity.
  - discriminate.
Defined.

(** X18. On a canvas that holds at least one box spacing between the
    paddings and with a frame duration that is not negative, when the
    last decoded text is empty, the final frame is not the frame before
    it: the frame of the last token draws [{}] as decoded
    JSON, the final frame draws the waiting text; both carry the
    placeholder statistics. *)
Theorem generate_animation_final_waits (text_width : str -> Z) (json : str)
    (tokens : list Z) (dss : list (str * Z)) (t : Z)
    (width frame_duration : Z) :
  token_spacing <= width - 2 * padding ->
  0 <= frame_duration ->
  Forall (fun ds : str * Z => encodable (fst ds) = true) dss ->
  exists anim fs f1 f2 calls,
    generate_animation text_width json tokens (dss ++ [([] : str, t)]) width
      frame_duration = Ok anim
    /\ frames anim = fs ++ [f1; f2]
    /\ decoded f1 = DecodedJson calls
    /\ List.concat (map drawn calls) = lit "{}"
    /\ decoded f2 = Waiting
    /\ stats_text f1 = UnknownStats /\ stats_text f2 = UnknownStats.
Proof.
  intros Hwide _ Henc. pose proof (tokens_per_row_wide width Hwide) as Ht.
  unfold generate_animation.
  destruct (create_frame_ok text_width width json tokens 0 [] 0 Ht)
    as (f0 & -> & _).
  cbn [bind].
  destruct (token_frames_ok text_width width json tokens dss Ht
              (encodable_countable dss Henc) 0) as (fs & Hfs & _).
  destruct (create_frame_ok text_width width json tokens (0 + len dss + 1)
              (or_braces []) 0 Ht) as (f1 & Hf1 & _ & _ & Hs1).
  rewrite (token_frames_snoc text_width width json tokens dss [] t 0 fs 0 f1
             Hfs eq_refl Hf1).
  cbn [bind]. rewrite final_decoded_snoc. cbn [byte_count bind].
  destruct (create_frame_ok text_width width json tokens (len tokens) [] 0 Ht)
    as (f2 & Hf2 & _ & _ & Hs2).
  rewrite Hf2. cbn [bind]. cbv zeta.
  destruct (create_frame_parts text_width _ _ _ _ _ _ _ Hf1) as (_ & _ & _ & Hd1).
  destruct (create_frame_parts text_width _ _ _ _ _ _ _ Hf2) as (_ & _ & _ & Hd2).
  cbn [or_braces] in Hd1.
  eexists. exists (f0 :: fs), f1, f2. eexists.
  split; [reflexivity|].
  split; [cbn [frames app]; f_equal; now rewrite <- app_assoc|].
  split; [exact Hd1|]. split.
  { unfold draw_json_colored. cbn [fst].
    rewrite <- (segments_concat (lit "{}")) at 2.
    rewrite <- (draw_segments_whole text_width padding (width - 2 * padding)
                  (classify (lit "{}"))
                  (padding, decoded_top text_width width json tokens)) at 2.
    now rewrite map_map. }
  split; [exact Hd2|].
  assert (Hz : forall v, stats_line v 0 = Ok UnknownStats).
  { intros v. unfold stats_line. now rewrite andb_false_r. }
  rewrite Hz in Hs1, Hs2. split; [now injection Hs1|now injection Hs2].
Qed.

Lemma generate_animation_final_waits_witness :
  exists anim fs f1 f2 calls,
    generate_animation Samples.mono Samples.pod_json [11] ([] ++ [([], 11)])
      700 800 = Ok anim
    /\ frames anim = fs ++ [f1; f2]
    /\ decoded f1 = DecodedJson calls
    /\ List.concat (map drawn calls) = lit "{}"
    /\ decoded f2 = Waiting
    /\ stats_text f1 = UnknownStats /\ stats_text f2 = UnknownStats.
Proof.
  apply (generate_animation_final_waits Samples.mono Samples.pod_json [11] []
           11 700 800).
  - vm_compute. discriminate.
  - lia.
  - constructor.
Defined.

(* ================================================================== *)
(** ** [colorize_json] *)

Lemma colorize_char_piece c rest st :
  exists pre post,
    code_before pre /\ code_after post
    /\ result_pieces (colorize_char c rest st)
       = result_pieces st ++ [pre ++ c :: post].
Proof.
  unfold colorize_char, code_before, code_after. cbv zeta.
  repeat match goal with
         | |- context [if ?b then _ else _] => destruct b
         end;
    cbn [result_pieces emit];
    first
      [ exists [], []; cbn; now auto
      | exists Colors_CYAN, []; cbn; now auto
      | exists Colors_GREEN, []; cbn; now auto 6
      | exists [], Colors_RESET; cbn; now auto
      | exists Colors_YELLOW, Colors_RESET; cbn; now auto 6
      | exists Colors_DIM, Colors_RESET; cbn; now auto 8
      | exists Colors_MAGENTA, Colors_RESET; cbn; now auto 10 ].
Qed.

Lemma colorize_scan_decorated s : forall st,
  exists out,
    decorated s out
    /\ List.concat (result_pieces (colorize_scan s st))
       = List.concat (result_pieces st) ++ out.
Proof.
  induction s as [|c rest IH]; intros st; cbn [colorize_scan].
  - exists []. split; [constructor|now rewrite app_nil_r].
  - destruct (IH (colorize_char c rest st)) as (out & Hd & ->).
    destruct (colorize_char_piece c rest st) as (pre & post & Hb & Ha & ->).
    exists (pre ++ c :: post ++ out). split; [now constructor|].
    rewrite concat_app. cbn [List.concat]. rewrite app_nil_r.
    rewrite <- !app_assoc. cbn [app]. reflexivity.
Qed.

(** X19. [colorize_json] keeps every character of its input, in order:
    its output is the input with, around each character, at most one of
    the colour codes before it and at most the reset code after it. *)
Theorem colorize_json_decorated (json_str : str) :
  decorated json_str (colorize_json json_str).
Proof.
  unfold colorize_json.
  destruct (colorize_scan_decorated json_str color_init) as (out & Hd & ->).
  exact Hd.
Qed.

(* ================================================================== *)
(** ** [print_box] *)

Lemma len_app {A} (a b : list A) : len (a ++ b) = len a + len b.
Proof. unfold len. rewrite length_app. lia. Qed.

Lemma len_times c n : len (times c n) = Z.max 0 n.
Proof. unfold len, times. rewrite repeat_length. lia. Qed.

Lemma len_slice_to (s : str) (k : Z) :
  0 <= k <= len s -> len (slice_to s k) = k.
Proof.
  intros H. unfold slice_to.
  destruct (k <? 0) eqn:E; [lia|].
  unfold len in *. rewrite length_firstn. lia.
Qed.

Lemma encodable_app (a b : str) :
  encodable (a ++ b) = encodable a && encodable b.
Proof. unfold encodable. apply forallb_app. Qed.

Lemma split_from_encodable sep s : forall cur,
  encodable s = true -> encodable cur = true ->
  Forall (fun line => encodable line = true) (split_from sep s cur).
Proof.
  induction s as [|c s IH]; intros cur Hs Hc; cbn [split_from].
  - now constructor.
  - cbn [encodable forallb] in Hs. apply andb_prop in Hs. destruct Hs as [Hch Hs].
    destruct (N.eqb c sep).
    + constructor; [exact Hc|]. now apply IH.
    + apply IH; [exact Hs|].
      rewrite encodable_app, Hc. cbn. now rewrite Hch.
Qed.

Lemma box_row_width (width : Z) (line : str) :
  7 <= width -> encodable line = true ->
  exists row, box_row width line = Ok row /\ len row = width + 2.
Proof.
  intros Hw He. unfold box_row, visible_len. rewrite He. cbn [bind].
  eexists. split; [reflexivity|].
  pose proof (len_nonneg line) as Hl.
  destruct (len line >? width - 4) eqn:E.
  - rewrite !len_app, len_times, len_slice_to by lia.
    change (len [BOX_V]) with 1. change (len (lit "  ")) with 2.
    change (len (lit "...")) with 3. lia.
  - rewrite !len_app, len_times.
    change (len [BOX_V]) with 1. change (len (lit "  ")) with 2. lia.
Qed.

Lemma mapM_all {A B} (f : A -> result B) (P : B -> Prop) (l : list A) :
  Forall (fun a => exists b, f a = Ok b /\ P b) l ->
  exists bs, mapM f l = Ok bs /\ Forall P bs
             /\ List.length bs = List.length l.
Proof.
  induction 1 as [|a l (b & Hb & Pb) _ (bs & Hbs & Pbs & Hl)]; cbn [mapM].
  - exists []. repeat split. constructor.
  - rewrite Hb. cbn [bind]. rewrite Hbs. cbn [bind].
    exists (b :: bs). repeat split; [now constructor|cbn; now rewrite Hl].
Qed.

(** X20. For a [width] of at least 7 and a content that UTF-8 can encode,
    [print_box] prints, under the top border, one row per line of the
    content and the bottom border, each of them [width + 2] characters
    long; without a title the top border has that length too, so the box
    is a rectangle. *)
Theorem print_box_rectangle (content title : str) (width : Z) :
  7 <= width -> encodable content = true ->
  exists top rows,
    print_box content title width = Ok (top :: rows ++ [box_bottom width])
    /\ List.length rows = List.length (split content NEWLINE)
    /\ Forall (fun row => len row = width + 2) (rows ++ [box_bottom width])
    /\ (title = [] -> len top = width + 2).
Proof.
  intros Hw He. unfold print_box. cbv zeta.
  destruct (mapM_all (box_row width) (fun row => len row = width + 2)
              (split content NEWLINE)) as (rows & -> & Hrows & Hlen).
  { eapply Forall_impl; [|apply (split_from_encodable NEWLINE content [] He eq_refl)].
    intros line Hl. now apply box_row_width. }
  cbn [bind]. exists (box_top title width), rows.
  split; [reflexivity|]. split; [exact Hlen|]. split.
  - apply Forall_app. split; [exact Hrows|]. constructor; [|constructor].
    unfold box_bottom. rewrite !len_app, len_times.
    change (len [BOX_BL]) with 1. change (len [BOX_BR]) with 1. lia.
  - intros ->. unfold box_top. rewrite !len_app, len_times.
    change (len [BOX_TL]) with 1. change (len [BOX_TR]) with 1. lia.
Qed.

Lemma print_box_rectangle_witness :
  exists top rows,
    print_box Samples.pod_json [] 20 = Ok (top :: rows ++ [box_bottom 20])
    /\ Forall (fun row => len row = 22) (rows ++ [box_bottom 20])
    /\ len top = 22.
Proof.
  destruct (print_box_rectangle Samples.pod_json [] 20 ltac:(lia) eq_refl)
    as (top & rows & Hrun & _ & Hall & Htop).
  exists top, rows. split; [exact Hrun|]. split; [exact Hall|].
  exact (Htop eq_refl).
Defined.

(** X21. With a title of at most [width - 4] characters, the top border
    is one character shorter than the rows under it: apart from the bold
    and reset codes around the title it has [width + 1] characters. *)
Theorem print_box_titled_top (title : str) (width : Z) :
  title <> [] -> len title <= width - 4 ->
  len (box_top title width)
  = width + 1 + len Colors_BOLD + len Colors_RESET.
Proof.
  intros Hne Hl. unfold box_top. destruct title as [|c title]; [contradiction|].
  rewrite !len_app, len_times.
  change (len [BOX_TL; BOX_H; SPACE]) with 3.
  change (len [SPACE]) with 1. change (len [BOX_TR]) with 1. lia.
Qed.

Lemma print_box_titled_top_witness :
  len (box_top (lit "Input") 20) = 21 + len Colors_BOLD + len Colors_RESET.
Proof.
  apply (print_box_titled_top (lit "Input") 20).
  - discriminate.
  - vm_compute. discriminate.
Defined.

(* ================================================================== *)
(** ** The progress bar *)

(** X22. The share of the progress bar never divides by zero: it is 0 for
    an empty token list, and for a visible count between 0 and the number
    of tokens it is a number between 0 and 1. *)
Theorem progress_of_bounds (visible : Z) (tokens : list Z) :
  progress_of visible [] = Ok 0%Q
  /\ (exists p, progress_of visible tokens = Ok p)
  /\ (0 <= visible <= len tokens ->
      exists p, progress_of visible tokens = Ok p /\ (0 <= p <= 1)%Q).
Proof.
  split; [reflexivity|].
  assert (Hne : forall (t : Z) ts, (len (t :: ts) =? 0) = false).
  { intros t ts. pose proof (len_nonneg ts). rewrite len_cons. lia. }
  split.
  - destruct tokens as [|t ts]; [now exists 0%Q|].
    unfold progress_of, truediv. rewrite Hne. now eexists.
  - intros Hv. destruct tokens as [|t ts].
    + exists 0%Q. split; [reflexivity|]. split; [apply Qle_refl|discriminate].
    + unfold progress_of, truediv. rewrite Hne. eexists. split; [reflexivity|].
      assert (Hpos : (0 < inject_Z (len (t :: ts)))%Q).
      { pose proof (len_nonneg ts). rewrite len_cons.
        unfold Qlt, inject_Z. cbn [Qnum Qden]. lia. }
      split.
      * apply Qle_shift_div_l; [exact Hpos|].
        unfold Qle, Qmult, inject_Z. cbn [Qnum Qden]. lia.
      * apply Qle_shift_div_r; [exact Hpos|].
        unfold Qle, Qmult, inject_Z. cbn [Qnum Qden]. lia.
Qed.

Lemma progress_of_bounds_witness :
  0 <= 3 <= len Samples.seven_tokens
  /\ exists p, progress_of 3 Samples.seven_tokens = Ok p /\ (0 <= p <= 1)%Q.
Proof.
  assert (H : 0 <= 3 <= len Samples.seven_tokens) by (vm_compute; split; discriminate).
  split; [exact H|].
  destruct (progress_of_bounds 3 Samples.seven_tokens) as (_ & _ & B).
  exact (B H).
Defined.
